(** * QtAVPlayer: the player core of [src/QtAVPlayer/qavplayer.cpp]

    A shallow embedding of [QAVPlayerPrivate] and of the client operations
    of [QAVPlayer], followed by the properties of the playback state
    machine, of the pending-seek cell and of the demuxer worker.

    Conventions.
    - A C++ [double] is an exact rational ([Q]): rounding is idealised
      away.  A conversion [double -> qint64] truncates toward zero
      ([to_qint64]); a [qint64] is an unbounded [Z].  Where rounding
      decides the value (a seek target on its way through seconds and
      back, [qFuzzyCompare] near its threshold) the statements name the
      expression the code evaluates, not the value it has in [Q]; the
      module [Binary64] evaluates those expressions in IEEE 754 binary64.
    - The private object [d] is the record [QAVPlayerPrivate]; a member
      [d->x] is the field [d_x].  A [void] member function is a function
      [QAVPlayerPrivate -> QAVPlayerPrivate].
    - Qt signals are appended to the trace [d_emitted]; closures handed to
      [dispatch] are appended to [d_posted]; the closures stored in
      [events] are the constructors of [Event].
    - The mutexes only delimit critical sections.  The one place where a
      claim depends on another thread running between two critical
      sections (the seek step of the demuxer worker) takes the calls of
      that thread as an explicit argument. *)

From Stdlib Require Import ZArith QArith Qabs Qminmax Bool List String Lia.
From Stdlib Require Floats.SpecFloat.
Import ListNotations.
Local Open Scope Z_scope.

(** ** Enumerations of [QAVPlayer] *)

Inductive MediaStatus := NoMedia | LoadedMedia | EndOfMedia | InvalidMedia.
Inductive State := StoppedState | PlayingState | PausedState.
Inductive Error := NoError | ResourceError.

Definition MediaStatus_eqb (a b : MediaStatus) : bool :=
  match a, b with
  | NoMedia, NoMedia | LoadedMedia, LoadedMedia
  | EndOfMedia, EndOfMedia | InvalidMedia, InvalidMedia => true
  | _, _ => false
  end.

Definition State_eqb (a b : State) : bool :=
  match a, b with
  | StoppedState, StoppedState | PlayingState, PlayingState
  | PausedState, PausedState => true
  | _, _ => false
  end.

Definition Error_eqb (a b : Error) : bool :=
  match a, b with
  | NoError, NoError | ResourceError, ResourceError => true
  | _, _ => false
  end.

(** ** Numbers *)

Abbreviation double := Q (only parsing).

(** [qint64(x)] for a double [x]: truncation toward zero. *)
Definition to_qint64 (x : double) : Z := Z.quot (Qnum x) (Zpos (Qden x)).

(** Qt's [qFuzzyCompare(double, double)] (qglobal.h):
    [qAbs(p1 - p2) * 1000000000000. <= qMin(qAbs(p1), qAbs(p2))]. *)
Definition qFuzzyCompare (p1 p2 : double) : bool :=
  Qle_bool (Qabs (p1 - p2) * 1000000000000) (Qmin (Qabs p1) (Qabs p2)).

(** ** Packets and packet queues *)

Record QAVPacket := { streamIndex : Z; packetBytes : Z }.

(** Modelled from the spec: [QAVPacketQueue] is declared in
    qavpacketqueue_p.h, which is not part of the sources.  Section 4.1 of
    the specification gives the queue as an ordered sequence of packets
    with a byte count, a [finished] flag, an [aborted] flag, the last pts
    and a frame-rate hint.  [enough()] is left to the implementation there
    and is a parameter of the demuxer worker below. *)
Record QAVPacketQueue := {
  q_packets : list QAVPacket;
  q_finished : bool;
  q_aborted : bool;
  q_pts : double;
  q_frameRate : double
}.

Module Queue.

Definition empty : QAVPacketQueue :=
  {| q_packets := []; q_finished := false; q_aborted := false;
     q_pts := 0; q_frameRate := 0 |}.

Definition bytes (q : QAVPacketQueue) : Z :=
  fold_right (fun p acc => packetBytes p + acc) 0 (q_packets q).

Definition isEmpty (q : QAVPacketQueue) : bool :=
  match q_packets q with [] => true | _ :: _ => false end.

Definition finished (q : QAVPacketQueue) : bool := q_finished q.

Definition pts (q : QAVPacketQueue) : double := q_pts q.

Definition enqueue (p : QAVPacket) (q : QAVPacketQueue) : QAVPacketQueue :=
  {| q_packets := q_packets q ++ [p]; q_finished := q_finished q;
     q_aborted := q_aborted q; q_pts := q_pts q;
     q_frameRate := q_frameRate q |}.

Definition clear (q : QAVPacketQueue) : QAVPacketQueue :=
  {| q_packets := []; q_finished := q_finished q;
     q_aborted := q_aborted q; q_pts := q_pts q;
     q_frameRate := q_frameRate q |}.

Definition finish (q : QAVPacketQueue) : QAVPacketQueue :=
  {| q_packets := q_packets q; q_finished := true;
     q_aborted := q_aborted q; q_pts := q_pts q;
     q_frameRate := q_frameRate q |}.

Definition abort (q : QAVPacketQueue) : QAVPacketQueue :=
  {| q_packets := q_packets q; q_finished := q_finished q;
     q_aborted := true; q_pts := q_pts q;
     q_frameRate := q_frameRate q |}.

(** [waitForEmpty()] blocks the producer until the consumer has drained
    the queue; it leaves the queue as the consumer left it. *)
Definition waitForEmpty (q : QAVPacketQueue) : QAVPacketQueue := q.

End Queue.

(** ** Signals, deferred events, posted closures *)

Inductive Signal :=
| mediaStatusChanged (status : MediaStatus)
| stateChanged (s : State)
| seekableChanged (seekable : bool)
| durationChanged (ms : Z)
| videoFrameRateChanged (v : double)
| errorOccurred (err : Error) (str : string)
| sourceChanged (url : string)
| played (pos : Z)
| paused (pos : Z)
| stopped (pos : Z)
| seeked (pos : Z)
| videoFrame_empty.            (* [emit videoFrame({})] *)

(** The closures appended to [events], one constructor per lambda. *)
Inductive Event :=
| EvPlayed                     (* play(), first lambda *)
| EvPendingPlay                (* play(), "postponing playing" *)
| EvPaused                     (* pause(), first lambda *)
| EvPendingPause               (* pause(), "postponing pausing" *)
| EvStopped                    (* stop() *)
| EvSeeked                     (* seek(), first lambda *)
| EvPendingSeek (pos : Z).     (* seek(), "postponing seeking" *)

(** The closures handed to [dispatch], to be run by the client thread. *)
Inductive Posted :=
| PostSetError (err : Error) (str : string)          (* doLoad *)
| PostLoaded (d : double) (seekable : bool) (frameRate : double)
| PostEndOfMedia.                                    (* doDemux *)

(** ** The private object *)

Record QAVPlayerPrivate := {
  d_url : string;
  d_mediaStatus : MediaStatus;
  d_state : State;
  d_events : list Event;
  d_seekable : bool;
  d_videoFrameRate : double;
  d_error : Error;
  d_errorString : string;
  d_duration : double;
  d_pendingPosition : double;
  d_videoStream : Z;           (* demuxer.videoStream() *)
  d_audioStream : Z;           (* demuxer.audioStream() *)
  d_videoQueue : QAVPacketQueue;
  d_audioQueue : QAVPacketQueue;
  d_quit : bool;
  d_isWaiting : bool;
  d_emitted : list Signal;
  d_posted : list Posted
}.

(** A freshly constructed player: the member initialisers of the class. *)
Definition initial : QAVPlayerPrivate :=
  {| d_url := ""; d_mediaStatus := NoMedia; d_state := StoppedState;
     d_events := []; d_seekable := false; d_videoFrameRate := 0;
     d_error := NoError; d_errorString := ""; d_duration := 0;
     d_pendingPosition := -1; d_videoStream := -1; d_audioStream := -1;
     d_videoQueue := Queue.empty; d_audioQueue := Queue.empty;
     d_quit := false; d_isWaiting := false;
     d_emitted := []; d_posted := [] |}.

(** Assignments [d->x = v], one per member. *)

Definition set_url (v : string) (d : QAVPlayerPrivate) : QAVPlayerPrivate :=
  {| d_url := v; d_mediaStatus := d_mediaStatus d; d_state := d_state d;
     d_events := d_events d; d_seekable := d_seekable d;
     d_videoFrameRate := d_videoFrameRate d; d_error := d_error d;
     d_errorString := d_errorString d; d_duration := d_duration d;
     d_pendingPosition := d_pendingPosition d;
     d_videoStream := d_videoStream d; d_audioStream := d_audioStream d;
     d_videoQueue := d_videoQueue d; d_audioQueue := d_audioQueue d;
     d_quit := d_quit d; d_isWaiting := d_isWaiting d;
     d_emitted := d_emitted d; d_posted := d_posted d |}.

Definition set_mediaStatus (v : MediaStatus) (d : QAVPlayerPrivate) : QAVPlayerPrivate :=
  {| d_url := d_url d; d_mediaStatus := v; d_state := d_state d;
     d_events := d_events d; d_seekable := d_seekable d;
     d_videoFrameRate := d_videoFrameRate d; d_error := d_error d;
     d_errorString := d_errorString d; d_duration := d_duration d;
     d_pendingPosition := d_pendingPosition d;
     d_videoStream := d_videoStream d; d_audioStream := d_audioStream d;
     d_videoQueue := d_videoQueue d; d_audioQueue := d_audioQueue d;
     d_quit := d_quit d; d_isWaiting := d_isWaiting d;
     d_emitted := d_emitted d; d_posted := d_posted d |}.

Definition set_state (v : State) (d : QAVPlayerPrivate) : QAVPlayerPrivate :=
  {| d_url := d_url d; d_mediaStatus := d_mediaStatus d; d_state := v;
     d_events := d_events d; d_seekable := d_seekable d;
     d_videoFrameRate := d_videoFrameRate d; d_error := d_error d;
     d_errorString := d_errorString d; d_duration := d_duration d;
     d_pendingPosition := d_pendingPosition d;
     d_videoStream := d_videoStream d; d_audioStream := d_audioStream d;
     d_videoQueue := d_videoQueue d; d_audioQueue := d_audioQueue d;
     d_quit := d_quit d; d_isWaiting := d_isWaiting d;
     d_emitted := d_emitted d; d_posted := d_posted d |}.

Definition set_events (v : list Event) (d : QAVPlayerPrivate) : QAVPlayerPrivate :=
  {| d_url := d_url d; d_mediaStatus := d_mediaStatus d;
     d_state := d_state d; d_events := v; d_seekable := d_seekable d;
     d_videoFrameRate := d_videoFrameRate d; d_error := d_error d;
     d_errorString := d_errorString d; d_duration := d_duration d;
     d_pendingPosition := d_pendingPosition d;
     d_videoStream := d_videoStream d; d_audioStream := d_audioStream d;
     d_videoQueue := d_videoQueue d; d_audioQueue := d_audioQueue d;
     d_quit := d_quit d; d_isWaiting := d_isWaiting d;
     d_emitted := d_emitted d; d_posted := d_posted d |}.

Definition set_seekable (v : bool) (d : QAVPlayerPrivate) : QAVPlayerPrivate :=
  {| d_url := d_url d; d_mediaStatus := d_mediaStatus d;
     d_state := d_state d; d_events := d_events d; d_seekable := v;
     d_videoFrameRate := d_videoFrameRate d; d_error := d_error d;
     d_errorString := d_errorString d; d_duration := d_duration d;
     d_pendingPosition := d_pendingPosition d;
     d_videoStream := d_videoStream d; d_audioStream := d_audioStream d;
     d_videoQueue := d_videoQueue d; d_audioQueue := d_audioQueue d;
     d_quit := d_quit d; d_isWaiting := d_isWaiting d;
     d_emitted := d_emitted d; d_posted := d_posted d |}.

Definition set_videoFrameRate (v : double) (d : QAVPlayerPrivate) : QAVPlayerPrivate :=
  {| d_url := d_url d; d_mediaStatus := d_mediaStatus d;
     d_state := d_state d; d_events := d_events d;
     d_seekable := d_seekable d; d_videoFrameRate := v; d_error := d_error d;
     d_errorString := d_errorString d; d_duration := d_duration d;
     d_pendingPosition := d_pendingPosition d;
     d_videoStream := d_videoStream d; d_audioStream := d_audioStream d;
     d_videoQueue := d_videoQueue d; d_audioQueue := d_audioQueue d;
     d_quit := d_quit d; d_isWaiting := d_isWaiting d;
     d_emitted := d_emitted d; d_posted := d_posted d |}.

Definition set_error (v : Error) (d : QAVPlayerPrivate) : QAVPlayerPrivate :=
  {| d_url := d_url d; d_mediaStatus := d_mediaStatus d;
     d_state := d_state d; d_events := d_events d;
     d_seekable := d_seekable d; d_videoFrameRate := d_videoFrameRate d;
     d_error := v; d_errorString := d_errorString d;
     d_duration := d_duration d; d_pendingPosition := d_pendingPosition d;
     d_videoStream := d_videoStream d; d_audioStream := d_audioStream d;
     d_videoQueue := d_videoQueue d; d_audioQueue := d_audioQueue d;
     d_quit := d_quit d; d_isWaiting := d_isWaiting d;
     d_emitted := d_emitted d; d_posted := d_posted d |}.

Definition set_errorString (v : string) (d : QAVPlayerPrivate) : QAVPlayerPrivate :=
  {| d_url := d_url d; d_mediaStatus := d_mediaStatus d;
     d_state := d_state d; d_events := d_events d;
     d_seekable := d_seekable d; d_videoFrameRate := d_videoFrameRate d;
     d_error := d_error d; d_errorString := v; d_duration := d_duration d;
     d_pendingPosition := d_pendingPosition d;
     d_videoStream := d_videoStream d; d_audioStream := d_audioStream d;
     d_videoQueue := d_videoQueue d; d_audioQueue := d_audioQueue d;
     d_quit := d_quit d; d_isWaiting := d_isWaiting d;
     d_emitted := d_emitted d; d_posted := d_posted d |}.

Definition set_duration (v : double) (d : QAVPlayerPrivate) : QAVPlayerPrivate :=
  {| d_url := d_url d; d_mediaStatus := d_mediaStatus d;
     d_state := d_state d; d_events := d_events d;
     d_seekable := d_seekable d; d_videoFrameRate := d_videoFrameRate d;
     d_error := d_error d; d_errorString := d_errorString d; d_duration := v;
     d_pendingPosition := d_pendingPosition d;
     d_videoStream := d_videoStream d; d_audioStream := d_audioStream d;
     d_videoQueue := d_videoQueue d; d_audioQueue := d_audioQueue d;
     d_quit := d_quit d; d_isWaiting := d_isWaiting d;
     d_emitted := d_emitted d; d_posted := d_posted d |}.

Definition set_pendingPosition (v : double) (d : QAVPlayerPrivate) : QAVPlayerPrivate :=
  {| d_url := d_url d; d_mediaStatus := d_mediaStatus d;
     d_state := d_state d; d_events := d_events d;
     d_seekable := d_seekable d; d_videoFrameRate := d_videoFrameRate d;
     d_error := d_error d; d_errorString := d_errorString d;
     d_duration := d_duration d; d_pendingPosition := v;
     d_videoStream := d_videoStream d; d_audioStream := d_audioStream d;
     d_videoQueue := d_videoQueue d; d_audioQueue := d_audioQueue d;
     d_quit := d_quit d; d_isWaiting := d_isWaiting d;
     d_emitted := d_emitted d; d_posted := d_posted d |}.

Definition set_videoStream (v : Z) (d : QAVPlayerPrivate) : QAVPlayerPrivate :=
  {| d_url := d_url d; d_mediaStatus := d_mediaStatus d;
     d_state := d_state d; d_events := d_events d;
     d_seekable := d_seekable d; d_videoFrameRate := d_videoFrameRate d;
     d_error := d_error d; d_errorString := d_errorString d;
     d_duration := d_duration d; d_pendingPosition := d_pendingPosition d;
     d_videoStream := v; d_audioStream := d_audioStream d;
     d_videoQueue := d_videoQueue d; d_audioQueue := d_audioQueue d;
     d_quit := d_quit d; d_isWaiting := d_isWaiting d;
     d_emitted := d_emitted d; d_posted := d_posted d |}.

Definition set_audioStream (v : Z) (d : QAVPlayerPrivate) : QAVPlayerPrivate :=
  {| d_url := d_url d; d_mediaStatus := d_mediaStatus d;
     d_state := d_state d; d_events := d_events d;
     d_seekable := d_seekable d; d_videoFrameRate := d_videoFrameRate d;
     d_error := d_error d; d_errorString := d_errorString d;
     d_duration := d_duration d; d_pendingPosition := d_pendingPosition d;
     d_videoStream := d_videoStream d; d_audioStream := v;
     d_videoQueue := d_videoQueue d; d_audioQueue := d_audioQueue d;
     d_quit := d_quit d; d_isWaiting := d_isWaiting d;
     d_emitted := d_emitted d; d_posted := d_posted d |}.

Definition set_videoQueue (v : QAVPacketQueue) (d : QAVPlayerPrivate) : QAVPlayerPrivate :=
  {| d_url := d_url d; d_mediaStatus := d_mediaStatus d;
     d_state := d_state d; d_events := d_events d;
     d_seekable := d_seekable d; d_videoFrameRate := d_videoFrameRate d;
     d_error := d_error d; d_errorString := d_errorString d;
     d_duration := d_duration d; d_pendingPosition := d_pendingPosition d;
     d_videoStream := d_videoStream d; d_audioStream := d_audioStream d;
     d_videoQueue := v; d_audioQueue := d_audioQueue d; d_quit := d_quit d;
     d_isWaiting := d_isWaiting d; d_emitted := d_emitted d;
     d_posted := d_posted d |}.

Definition set_audioQueue (v : QAVPacketQueue) (d : QAVPlayerPrivate) : QAVPlayerPrivate :=
  {| d_url := d_url d; d_mediaStatus := d_mediaStatus d;
     d_state := d_state d; d_events := d_events d;
     d_seekable := d_seekable d; d_videoFrameRate := d_videoFrameRate d;
     d_error := d_error d; d_errorString := d_errorString d;
     d_duration := d_duration d; d_pendingPosition := d_pendingPosition d;
     d_videoStream := d_videoStream d; d_audioStream := d_audioStream d;
     d_videoQueue := d_videoQueue d; d_audioQueue := v; d_quit := d_quit d;
     d_isWaiting := d_isWaiting d; d_emitted := d_emitted d;
     d_posted := d_posted d |}.

Definition set_quit (v : bool) (d : QAVPlayerPrivate) : QAVPlayerPrivate :=
  {| d_url := d_url d; d_mediaStatus := d_mediaStatus d;
     d_state := d_state d; d_events := d_events d;
     d_seekable := d_seekable d; d_videoFrameRate := d_videoFrameRate d;
     d_error := d_error d; d_errorString := d_errorString d;
     d_duration := d_duration d; d_pendingPosition := d_pendingPosition d;
     d_videoStream := d_videoStream d; d_audioStream := d_audioStream d;
     d_videoQueue := d_videoQueue d; d_audioQueue := d_audioQueue d;
     d_quit := v; d_isWaiting := d_isWaiting d; d_emitted := d_emitted d;
     d_posted := d_posted d |}.

Definition set_isWaiting (v : bool) (d : QAVPlayerPrivate) : QAVPlayerPrivate :=
  {| d_url := d_url d; d_mediaStatus := d_mediaStatus d;
     d_state := d_state d; d_events := d_events d;
     d_seekable := d_seekable d; d_videoFrameRate := d_videoFrameRate d;
     d_error := d_error d; d_errorString := d_errorString d;
     d_duration := d_duration d; d_pendingPosition := d_pendingPosition d;
     d_videoStream := d_videoStream d; d_audioStream := d_audioStream d;
     d_videoQueue := d_videoQueue d; d_audioQueue := d_audioQueue d;
     d_quit := d_quit d; d_isWaiting := v; d_emitted := d_emitted d;
     d_posted := d_posted d |}.

Definition set_emitted (v : list Signal) (d : QAVPlayerPrivate) : QAVPlayerPrivate :=
  {| d_url := d_url d; d_mediaStatus := d_mediaStatus d;
     d_state := d_state d; d_events := d_events d;
     d_seekable := d_seekable d; d_videoFrameRate := d_videoFrameRate d;
     d_error := d_error d; d_errorString := d_errorString d;
     d_duration := d_duration d; d_pendingPosition := d_pendingPosition d;
     d_videoStream := d_videoStream d; d_audioStream := d_audioStream d;
     d_videoQueue := d_videoQueue d; d_audioQueue := d_audioQueue d;
     d_quit := d_quit d; d_isWaiting := d_isWaiting d; d_emitted := v;
     d_posted := d_posted d |}.

Definition set_posted (v : list Posted) (d : QAVPlayerPrivate) : QAVPlayerPrivate :=
  {| d_url := d_url d; d_mediaStatus := d_mediaStatus d;
     d_state := d_state d; d_events := d_events d;
     d_seekable := d_seekable d; d_videoFrameRate := d_videoFrameRate d;
     d_error := d_error d; d_errorString := d_errorString d;
     d_duration := d_duration d; d_pendingPosition := d_pendingPosition d;
     d_videoStream := d_videoStream d; d_audioStream := d_audioStream d;
     d_videoQueue := d_videoQueue d; d_audioQueue := d_audioQueue d;
     d_quit := d_quit d; d_isWaiting := d_isWaiting d;
     d_emitted := d_emitted d; d_posted := v |}.
(** ** Member functions of [QAVPlayerPrivate] and accessors of [QAVPlayer] *)

(** [emit q->sig(...)]. *)
Definition emit (sig : Signal) (d : QAVPlayerPrivate) : QAVPlayerPrivate :=
  set_emitted (d_emitted d ++ [sig]) d.

(** [dispatch(fn)]: [QMetaObject::invokeMethod(q_ptr, fn, nullptr)]. *)
Definition dispatch (fn : Posted) (d : QAVPlayerPrivate) : QAVPlayerPrivate :=
  set_posted (d_posted d ++ [fn]) d.

Definition mediaStatus (d : QAVPlayerPrivate) : MediaStatus := d_mediaStatus d.

Definition state (d : QAVPlayerPrivate) : State := d_state d.

Definition hasAudio (d : QAVPlayerPrivate) : bool := 0 <=? d_audioStream d.

Definition hasVideo (d : QAVPlayerPrivate) : bool := 0 <=? d_videoStream d.

(** [return d_func()->duration * 1000;] with return type [qint64]. *)
Definition duration (d : QAVPlayerPrivate) : Z :=
  to_qint64 (d_duration d * 1000).

Definition isSeeking (d : QAVPlayerPrivate) : bool :=
  Qle_bool 0 (d_pendingPosition d).

Definition position (d : QAVPlayerPrivate) : Z :=
  if MediaStatus_eqb (mediaStatus d) EndOfMedia then duration d
  else if Qle_bool 0 (d_pendingPosition d)
  then to_qint64 (d_pendingPosition d * 1000)
  else
    let pts := if hasVideo d then Queue.pts (d_videoQueue d)
               else Queue.pts (d_audioQueue d) in
    to_qint64 (pts * 1000).

Definition setMediaStatus (status : MediaStatus) (d : QAVPlayerPrivate)
  : QAVPlayerPrivate :=
  if MediaStatus_eqb (d_mediaStatus d) status then d
  else emit (mediaStatusChanged status) (set_mediaStatus status d).

(** [event(fn)]: every caller passes a non-empty function. *)
Definition event (fn : Event) (d : QAVPlayerPrivate) : QAVPlayerPrivate :=
  set_events (d_events d ++ [fn]) d.

Definition setState (s : State) (d : QAVPlayerPrivate)
  : bool * QAVPlayerPrivate :=
  if State_eqb (d_state d) s then (false, d)
  else (true, emit (stateChanged s) (set_state s d)).

Definition setSeekable (s : bool) (d : QAVPlayerPrivate) : QAVPlayerPrivate :=
  if Bool.eqb (d_seekable d) s then d
  else emit (seekableChanged s) (set_seekable s d).

Definition setDuration (v : double) (d : QAVPlayerPrivate) : QAVPlayerPrivate :=
  if qFuzzyCompare (d_duration d) v then d
  else
    let d := set_duration v d in
    emit (durationChanged (duration d)) d.

Definition setVideoFrameRate (v : double) (d : QAVPlayerPrivate)
  : QAVPlayerPrivate :=
  if qFuzzyCompare (d_videoFrameRate d) v then d
  else emit (videoFrameRateChanged v) (set_videoFrameRate v d).

Definition setError (err : Error) (str : string) (d : QAVPlayerPrivate)
  : QAVPlayerPrivate :=
  if Error_eqb (d_error d) err then d
  else
    let d := set_error err d in
    let d := set_errorString str d in
    let d := emit (errorOccurred err str) d in
    setMediaStatus InvalidMedia d.

(** The gate: [wait(v)] stores the flag; the wake-ups carry no data. *)
Definition wait (v : bool) (d : QAVPlayerPrivate) : QAVPlayerPrivate :=
  set_isWaiting v d.

(** [terminate()].  [demuxer.abort()] and the joins of the four futures act
    on the workers, which are stepped separately. *)
Definition terminate (d : QAVPlayerPrivate) : QAVPlayerPrivate :=
  let d := snd (setState StoppedState d) in
  let d := setMediaStatus NoMedia d in
  let d := set_quit true d in
  let d := wait false d in
  let d := set_videoFrameRate 0 d in
  let d := set_videoQueue (Queue.abort (Queue.clear (d_videoQueue d))) d in
  let d := set_audioQueue (Queue.abort (Queue.clear (d_audioQueue d))) d in
  set_pendingPosition (-1) d.

(** ** Client operations of [QAVPlayer] *)

Definition loaded_or_end (status : MediaStatus) : bool :=
  MediaStatus_eqb status LoadedMedia || MediaStatus_eqb status EndOfMedia.

Definition seek (pos : Z) (d : QAVPlayerPrivate) : QAVPlayerPrivate :=
  if (pos <? 0) || ((0 <? duration d) && (duration d <? pos)) then d
  else
    let status := mediaStatus d in
    if loaded_or_end status then
      let d := set_pendingPosition (inject_Z pos / 1000) d in
      let d := if MediaStatus_eqb status EndOfMedia
               then setMediaStatus LoadedMedia d else d in
      let d := event EvSeeked d in
      wait false d
    else event (EvPendingSeek pos) d.

Definition play (d : QAVPlayerPrivate) : QAVPlayerPrivate :=
  if (d_url d =? "")%string || MediaStatus_eqb (mediaStatus d) InvalidMedia
  then d
  else
    let status := mediaStatus d in
    if loaded_or_end status then
      let (changed, d) := setState PlayingState d in
      let d :=
        if changed then
          let d := if MediaStatus_eqb status EndOfMedia then seek 0 d else d in
          event EvPlayed d
        else d in
      wait false d
    else event EvPendingPlay d.

Definition pause (d : QAVPlayerPrivate) : QAVPlayerPrivate :=
  let status := mediaStatus d in
  if loaded_or_end status then
    let d := if MediaStatus_eqb status EndOfMedia then seek 0 d else d in
    let (changed, d) := setState PausedState d in
    if changed then event EvPaused (wait false d)
    else wait true d
  else event EvPendingPause d.

Definition stop (d : QAVPlayerPrivate) : QAVPlayerPrivate :=
  let status := mediaStatus d in
  if loaded_or_end status then
    let (changed, d) := setState StoppedState d in
    if changed then event EvStopped (wait false d)
    else wait true d
  else d.

Definition setSource (url : string) (d : QAVPlayerPrivate) : QAVPlayerPrivate :=
  if (d_url d =? url)%string then d
  else
    let d := terminate d in
    let d := set_url url d in
    let d := emit (sourceChanged url) d in
    if (d_url d =? "")%string then setDuration 0 (setMediaStatus NoMedia d)
    else set_quit false (wait true d).

(** ** Deferred events *)

(** The body of each lambda stored in [events]: the argument is [tick],
    the boolean result says whether the event is consumed. *)
Definition run_event (ev : Event) (tick : bool) (d : QAVPlayerPrivate)
  : bool * QAVPlayerPrivate :=
  match ev with
  | EvPlayed =>
      let d := wait false d in
      if negb tick && negb (MediaStatus_eqb (mediaStatus d) EndOfMedia)
      then (false, d)
      else (true, emit (played (position d)) d)
  | EvPendingPlay => (true, play d)
  | EvPaused =>
      if negb tick && negb (MediaStatus_eqb (mediaStatus d) EndOfMedia)
      then (false, d)
      else
        let d := emit (paused (position d)) d in
        (true, wait true d)
  | EvPendingPause => (true, pause d)
  | EvStopped =>
      let d := emit (stopped (position d)) d in
      let d := if hasVideo d then emit videoFrame_empty d else d in
      (true, wait true d)
  | EvSeeked =>
      if negb tick || isSeeking d then (false, d)
      else
        let d := emit (seeked (position d)) d in
        let currState := state d in
        let d := if State_eqb currState PausedState
                    || State_eqb currState StoppedState
                 then wait true d else d in
        (true, d)
  | EvPendingSeek pos => (true, seek pos d)
  end.

(** The [while] loop of [processEvents]; [None] when [fuel] iterations do
    not empty the list or reach an event that stays. *)
Fixpoint processEvents_loop (fuel : nat) (tick : bool) (d : QAVPlayerPrivate)
  : option QAVPlayerPrivate :=
  match d_events d with
  | [] => Some d
  | ev :: _ =>
      match fuel with
      | O => None
      | S fuel' =>
          let (consumed, d) := run_event ev tick d in
          if consumed
          then processEvents_loop fuel' tick (set_events (tl (d_events d)) d)
          else Some d
      end
  end.

Definition processEvents (fuel : nat) (tick : bool) (d : QAVPlayerPrivate)
  : option QAVPlayerPrivate :=
  match d_events d with
  | [] => Some d
  | _ :: _ => if isSeeking d then Some d else processEvents_loop fuel tick d
  end.

(** The closures posted to the client thread, as it runs them. *)
Definition run_posted (fuel : nat) (fn : Posted) (d : QAVPlayerPrivate)
  : option QAVPlayerPrivate :=
  match fn with
  | PostSetError err str => Some (setError err str d)
  | PostLoaded dur seekable frameRate =>
      let d := setSeekable seekable d in
      let d := setDuration dur d in
      let d := setVideoFrameRate frameRate d in
      let d := setMediaStatus LoadedMedia d in
      processEvents fuel true d
  | PostEndOfMedia =>
      let d := setMediaStatus EndOfMedia d in
      Some (stop d)
  end.

(** ** The demuxer worker *)

(** Calls of the client thread, for the places where they interleave with
    a worker. *)
Inductive ClientCall :=
| CallPlay
| CallPause
| CallStop
| CallSeek (pos : Z).

Definition run_call (c : ClientCall) (d : QAVPlayerPrivate) : QAVPlayerPrivate :=
  match c with
  | CallPlay => play d
  | CallPause => pause d
  | CallStop => stop d
  | CallSeek pos => seek pos d
  end.

Definition run_calls (cs : list ClientCall) (d : QAVPlayerPrivate)
  : QAVPlayerPrivate :=
  fold_left (fun d c => run_call c d) cs d.

(** What one iteration of [doDemux] gets from outside the player: the
    answers of the external demuxer, and the client calls that are served
    between [locker.unlock()] and [locker.relock()] of the seek step. *)
Record DemuxerStep := {
  seek_ret : Z;                      (* demuxer.seek(pos) *)
  seek_window : list ClientCall;
  read_packet : option QAVPacket;    (* demuxer.read(), null as None *)
  read_eof : bool                    (* demuxer.eof() *)
}.

(** What the worker does in an iteration, in order. *)
Inductive DemuxAction :=
| ActSleep                           (* waiter.wait(&waiterMutex, 10) *)
| ActSeek (pos : double)             (* demuxer.seek(pos) *)
| ActRead.                           (* demuxer.read() *)

Definition maxQueueBytes : Z := 15 * 1024 * 1024.

(** Modelled from the spec: an instance of [enough()], which section 4.1
    describes as true when the queue holds at least a threshold of
    packets; qavpacketqueue_p.h is not part of the sources.  It is used
    to run the worker on concrete queues only. *)
Definition enough_packets (n : nat) (q : QAVPacketQueue) : bool :=
  (n <=? List.length (q_packets q))%nat.

Section DemuxerWorker.

(** [QAVPacketQueue::enough()]. *)
Variable enough : QAVPacketQueue -> bool.

(** The condition of the first [if] of the loop body. *)
Definition backpressure (d : QAVPlayerPrivate) : bool :=
  (maxQueueBytes <?
     Queue.bytes (d_videoQueue d) + Queue.bytes (d_audioQueue d))
  || (enough (d_videoQueue d) && enough (d_audioQueue d)).

(** The seek step between [locker.unlock()] and [locker.relock()]: the
    worker seeks and, on success, clears the queues and waits for them;
    meanwhile the client thread is free to run. *)
Definition demux_seek_unlocked (env : DemuxerStep) (d : QAVPlayerPrivate)
  : QAVPlayerPrivate :=
  let d :=
    if 0 <=? seek_ret env then
      let d := set_videoQueue (Queue.clear (d_videoQueue d)) d in
      let d := set_audioQueue (Queue.clear (d_audioQueue d)) d in
      let d := set_videoQueue (Queue.waitForEmpty (d_videoQueue d)) d in
      set_audioQueue (Queue.waitForEmpty (d_audioQueue d)) d
    else d in
  run_calls (seek_window env) d.

(** The block guarded by [positionMutex]. *)
Definition demux_seek (env : DemuxerStep) (d : QAVPlayerPrivate)
  : QAVPlayerPrivate * list DemuxAction :=
  if Qle_bool 0 (d_pendingPosition d) then
    let pos := d_pendingPosition d in
    let d := demux_seek_unlocked env d in
    let d := if qFuzzyCompare (d_pendingPosition d) pos
             then set_pendingPosition (-1) d else d in
    (d, [ActSeek pos])
  else (d, []).

(** The condition of the [if] inside [if (!packet)]. *)
Definition end_reached (eof : bool) (d : QAVPlayerPrivate) : bool :=
  eof
  && Queue.isEmpty (d_videoQueue d) && Queue.isEmpty (d_audioQueue d)
  && negb (Queue.finished (d_videoQueue d))
  && negb (Queue.finished (d_audioQueue d)).

(** The body of [if (!packet)], up to the timed wait. *)
Definition demux_no_packet (eof : bool) (d : QAVPlayerPrivate)
  : QAVPlayerPrivate :=
  if end_reached eof d then
    let d := if hasVideo d
             then set_videoQueue (Queue.finish (d_videoQueue d)) d else d in
    let d := if hasAudio d
             then set_audioQueue (Queue.finish (d_audioQueue d)) d else d in
    dispatch PostEndOfMedia d
  else d.

(** The last statement of the loop body. *)
Definition demux_route (packet : QAVPacket) (d : QAVPlayerPrivate)
  : QAVPlayerPrivate :=
  if streamIndex packet =? d_videoStream d
  then set_videoQueue (Queue.enqueue packet (d_videoQueue d)) d
  else if streamIndex packet =? d_audioStream d
  then set_audioQueue (Queue.enqueue packet (d_audioQueue d)) d
  else d.

(** One iteration of [while (!quit)], once [doWait()] has returned. *)
Definition doDemux_iteration (env : DemuxerStep) (d : QAVPlayerPrivate)
  : QAVPlayerPrivate * list DemuxAction :=
  if backpressure d then (d, [ActSleep])
  else
    let (d, sought) := demux_seek env d in
    match read_packet env with
    | None => (demux_no_packet (read_eof env) d, sought ++ [ActRead; ActSleep])
    | Some packet => (demux_route packet d, sought ++ [ActRead])
    end.

(** [doDemux], for as many iterations as there are steps given. *)
Fixpoint doDemux (envs : list DemuxerStep) (d : QAVPlayerPrivate)
  : QAVPlayerPrivate * list DemuxAction :=
  match envs with
  | [] => (d, [])
  | env :: envs' =>
      if d_quit d then (d, [])
      else
        let (d1, done1) := doDemux_iteration env d in
        let (d2, done2) := doDemux envs' d1 in
        (d2, done1 ++ done2)
  end.

End DemuxerWorker.

(** ** The loader worker *)

(** The answers of the external demuxer to [load(url)] and to the queries
    that follow it. *)
Record LoadResult := {
  load_ret : Z;
  load_err_str : string;             (* err_str(ret) *)
  load_videoStream : Z;
  load_audioStream : Z;
  load_duration : double;
  load_seekable : bool;
  load_frameRate : double
}.

(** [doLoad(url)], up to the start of the other workers. *)
Definition doLoad (r : LoadResult) (d : QAVPlayerPrivate) : QAVPlayerPrivate :=
  let d := set_videoStream (load_videoStream r) d in
  let d := set_audioStream (load_audioStream r) d in
  if load_ret r <? 0
  then dispatch (PostSetError ResourceError (load_err_str r)) d
  else if (d_videoStream d <? 0) && (d_audioStream d <? 0)
  then dispatch (PostSetError ResourceError "No codecs found") d
  else dispatch (PostLoaded (load_duration r) (load_seekable r)
                            (load_frameRate r)) d.

(** ** The client thread *)

(** One turn of the client thread's event loop: it runs the oldest posted
    closure, if there is one. *)
Definition client_turn (fuel : nat) (d : QAVPlayerPrivate)
  : option QAVPlayerPrivate :=
  match d_posted d with
  | [] => Some d
  | fn :: rest => run_posted fuel fn (set_posted rest d)
  end.

(** The members only the workers and [setSource] write. *)
Definition worker_side (d : QAVPlayerPrivate) :=
  (d_videoStream d, d_audioStream d, d_videoQueue d, d_audioQueue d,
   d_duration d, d_quit d, d_posted d, d_url d).

(** ** Reading the signal trace *)

(** The signals a call emits: what it adds to the trace. *)
Definition emitted_by (call : QAVPlayerPrivate -> QAVPlayerPrivate)
    (d : QAVPlayerPrivate) : list Signal :=
  skipn (List.length (d_emitted d)) (d_emitted (call d)).

Definition is_mediaStatusChanged (status : MediaStatus) (sig : Signal) : bool :=
  match sig with
  | mediaStatusChanged s => MediaStatus_eqb s status
  | _ => false
  end.

Definition is_stateChanged (s : State) (sig : Signal) : bool :=
  match sig with
  | stateChanged s' => State_eqb s' s
  | _ => false
  end.

Definition is_seeked (sig : Signal) : bool :=
  match sig with
  | seeked _ => true
  | _ => false
  end.

(** Some signal satisfying [first] is followed, later in the trace, by one
    satisfying [second]. *)
Fixpoint emitted_before (first second : Signal -> bool) (l : list Signal)
  : bool :=
  match l with
  | [] => false
  | sig :: l' =>
      (first sig && existsb second l') || emitted_before first second l'
  end.

Definition count_seeked (l : list Signal) : nat :=
  List.length (filter is_seeked l).

(** ** Sample players *)

(** A file with a video stream 0 and an audio stream 1, ten seconds long. *)
Definition sample_load : LoadResult :=
  {| load_ret := 0; load_err_str := "";
     load_videoStream := 0; load_audioStream := 1;
     load_duration := 10; load_seekable := true; load_frameRate := 25 |}.

(** A source that cannot be opened. *)
Definition sample_failed_load : LoadResult :=
  {| load_ret := -2; load_err_str := "No such file or directory";
     load_videoStream := -1; load_audioStream := -1;
     load_duration := 0; load_seekable := false; load_frameRate := 0 |}.

(** The player after [setSource("file:///a.mp4")], the loader and the
    client turn that runs the loader's closure. *)
Definition sample_loaded : QAVPlayerPrivate :=
  {| d_url := "file:///a.mp4"; d_mediaStatus := LoadedMedia;
     d_state := StoppedState; d_events := []; d_seekable := true;
     d_videoFrameRate := 25; d_error := NoError; d_errorString := "";
     d_duration := 10; d_pendingPosition := -1;
     d_videoStream := 0; d_audioStream := 1;
     d_videoQueue := Queue.abort Queue.empty;
     d_audioQueue := Queue.abort Queue.empty;
     d_quit := false; d_isWaiting := true;
     d_emitted :=
       [sourceChanged "file:///a.mp4"; seekableChanged true;
        durationChanged 10000; videoFrameRateChanged 25;
        mediaStatusChanged LoadedMedia];
     d_posted := [] |}.

(** The same player at the end of the media, stopped. *)
Definition sample_ended : QAVPlayerPrivate :=
  set_mediaStatus EndOfMedia sample_loaded.

(** The same player after [play()] and the first frame. *)
Definition sample_playing : QAVPlayerPrivate :=
  set_emitted
    (d_emitted sample_loaded ++ [stateChanged PlayingState; played 0])
    (set_isWaiting false (set_state PlayingState sample_loaded)).

(** A player that is playing while its media status is InvalidMedia. *)
Definition sample_playing_invalid : QAVPlayerPrivate :=
  {| d_url := "file:///missing"; d_mediaStatus := InvalidMedia;
     d_state := PlayingState; d_events := []; d_seekable := true;
     d_videoFrameRate := 25; d_error := ResourceError;
     d_errorString := "No such file or directory";
     d_duration := 10; d_pendingPosition := -1;
     d_videoStream := -1; d_audioStream := -1;
     d_videoQueue := Queue.abort Queue.empty;
     d_audioQueue := Queue.abort Queue.empty;
     d_quit := false; d_isWaiting := false;
     d_emitted :=
       [sourceChanged "file:///a.mp4"; sourceChanged "file:///missing";
        seekableChanged true; durationChanged 10000;
        videoFrameRateChanged 25; mediaStatusChanged LoadedMedia;
        stateChanged PlayingState; played 0;
        errorOccurred ResourceError "No such file or directory";
        mediaStatusChanged InvalidMedia];
     d_posted := [] |}.

(** An iteration of the demuxer worker during which the client calls
    [seek(7000)], and one during which it calls nothing; the demuxer has
    no packet at hand in either. *)
Definition newer_seek_step : DemuxerStep :=
  {| seek_ret := 0; seek_window := [CallSeek 7000];
     read_packet := None; read_eof := false |}.

Definition quiet_step : DemuxerStep :=
  {| seek_ret := 0; seek_window := []; read_packet := None;
     read_eof := false |}.

(** A playing stream of unknown duration, and an iteration during which
    the client asks for a target one millisecond after 2 * 10^12 ms. *)
Definition sample_live : QAVPlayerPrivate := set_duration 0 sample_playing.

Definition far_seek_step : DemuxerStep :=
  {| seek_ret := 0; seek_window := [CallSeek 2000000000001];
     read_packet := None; read_eof := false |}.

(** The playing sample with one 16 MiB video packet queued. *)
Definition sample_full : QAVPlayerPrivate :=
  set_videoQueue
    (Queue.enqueue {| streamIndex := 0; packetBytes := 16 * 1024 * 1024 |}
       (d_videoQueue sample_playing))
    sample_playing.

(** An iteration in which the demuxer reports the end of the file. *)
Definition eof_step : DemuxerStep :=
  {| seek_ret := 0; seek_window := []; read_packet := None;
     read_eof := true |}.

(** A packet of a third stream, and the iteration that reads it. *)
Definition subtitle_packet : QAVPacket :=
  {| streamIndex := 2; packetBytes := 64 |}.

Definition subtitle_step : DemuxerStep :=
  {| seek_ret := 0; seek_window := []; read_packet := Some subtitle_packet;
     read_eof := false |}.

(** A playing file with a video stream 0 and no audio stream: sixteen
    video packets of 1 KiB are queued, the audio queue is empty.  And an
    iteration of the demuxer worker that has one more video packet at
    hand. *)
Definition video_packet : QAVPacket :=
  {| streamIndex := 0; packetBytes := 1024 |}.

Definition sample_video_only : QAVPlayerPrivate :=
  set_videoQueue
    {| q_packets := repeat video_packet 16; q_finished := false;
       q_aborted := false; q_pts := 0; q_frameRate := 25 |}
    (set_audioQueue Queue.empty (set_audioStream (-1) sample_playing)).

Definition video_step : DemuxerStep :=
  {| seek_ret := 0; seek_window := []; read_packet := Some video_packet;
     read_eof := false |}.

(** The playing sample runs into the end of the file: the worker's
    iteration, the client turn that runs what it posted, and a tick. *)
Definition end_of_media_run : option QAVPlayerPrivate :=
  let d :=
    fst (doDemux_iteration (enough_packets 16) eof_step sample_playing) in
  match client_turn 1 d with
  | Some d => processEvents 1 true d
  | None => None
  end.

(** How [sample_playing_invalid] comes about: the source is changed after
    the first loader has posted its closure and before the client thread
    has run it; [play()] is called at once and deferred; the second source
    fails to load.  The client thread then runs the closure of the first
    load, which starts the deferred [play()], and after it the closure of
    the failed load. *)
Definition stale_load_run : option QAVPlayerPrivate :=
  let d := setSource "file:///a.mp4" initial in
  let d := doLoad sample_load d in
  let d := setSource "file:///missing" d in
  let d := play d in
  let d := doLoad sample_failed_load d in
  match client_turn 3 d with
  | Some d => client_turn 1 d
  | None => None
  end.

(** ** Measures and views for the further properties *)

(** A bound on the iterations one event costs the drain of
    [processEvents]: a deferred call is consumed and may queue up to two
    events; any other event queues none. *)
Definition event_weight (ev : Event) : nat :=
  match ev with
  | EvPendingPlay | EvPendingPause | EvPendingSeek _ => 3
  | _ => 1
  end.

Definition events_weight (l : list Event) : nat :=
  list_sum (map event_weight l).

(** The deferred [play()] and [pause()] calls. *)
Definition deferred_call (ev : Event) : bool :=
  match ev with
  | EvPendingPlay | EvPendingPause => true
  | _ => false
  end.

Definition is_errorOccurred (sig : Signal) : bool :=
  match sig with
  | errorOccurred _ _ => true
  | _ => false
  end.

(** The members the demuxer worker does not write. *)
Definition client_side (d : QAVPlayerPrivate) :=
  (d_url d, d_mediaStatus d, d_state d, d_events d, d_seekable d,
   d_videoFrameRate d, d_error d, d_errorString d, d_duration d,
   d_videoStream d, d_audioStream d, d_quit d, d_isWaiting d, d_emitted d).

(** The members that neither a client call nor a deferred event writes. *)
Definition call_frame (d : QAVPlayerPrivate) :=
  (worker_side d, d_error d, d_errorString d, d_seekable d,
   d_videoFrameRate d).

(** The members the setters of the loader's closure do not write. *)
Definition load_frame (d : QAVPlayerPrivate) :=
  (d_url d, d_state d, d_events d, d_error d, d_errorString d,
   d_pendingPosition d, d_videoStream d, d_audioStream d, d_videoQueue d,
   d_audioQueue d, d_quit d, d_isWaiting d, d_posted d).

(** The setters of the loader's closure, up to [processEvents]. *)
Definition loaded_setters (dur : double) (seekable : bool)
    (frameRate : double) (d : QAVPlayerPrivate) : QAVPlayerPrivate :=
  setMediaStatus LoadedMedia
    (setVideoFrameRate frameRate (setDuration dur (setSeekable seekable d))).

(** A player whose source is set and not yet loaded, and the same player
    after a [play()] that had to be deferred. *)
Definition sample_opened : QAVPlayerPrivate :=
  setSource "file:///a.mp4" initial.

Definition sample_waiting : QAVPlayerPrivate := play sample_opened.

(** ** The arithmetic of seek targets in binary64 *)

(** The embedding above computes in [Q].  The expressions of the code that
    convert between milliseconds and seconds, and [qFuzzyCompare], are
    given here once more as the code evaluates them, in IEEE 754 binary64
    with rounding to nearest, ties to even. *)
Module Binary64.

Import SpecFloat.

Definition prec : Z := 53.
Definition emax : Z := 1024.

(** A [qint64] converted to [double]. *)
Definition of_qint64 (z : Z) : spec_float :=
  binary_normalize prec emax z 0 false.

(** A [double] converted to [qint64]: truncation toward zero.  The
    conversion is undefined in C++ for a NaN, for an infinity and for a
    value outside the range of [qint64]. *)
Definition to_qint64 (x : spec_float) : option Z :=
  match x with
  | S754_zero _ => Some 0
  | S754_finite s m e =>
      let v := if 0 <=? e then Z.shiftl (Zpos m) e
               else Z.shiftr (Zpos m) (- e) in
      let v := if s then - v else v in
      if (- 2 ^ 63 <=? v) && (v <? 2 ^ 63) then Some v else None
  | _ => None
  end.

(** [pos / 1000.0], the value that [seek(pos)] stores. *)
Definition seek_target (pos : Z) : spec_float :=
  SFdiv prec emax (of_qint64 pos) (of_qint64 1000).

(** [pendingPosition * 1000] as a [qint64], the value that [position()]
    returns while a seek is pending. *)
Definition position_pending (pendingPosition : spec_float) : option Z :=
  to_qint64 (SFmul prec emax pendingPosition (of_qint64 1000)).

Definition qAbs (x : spec_float) : spec_float := SFabs x.

Definition qMin (a b : spec_float) : spec_float :=
  if SFltb a b then a else b.

Definition qFuzzyCompare (p1 p2 : spec_float) : bool :=
  SFleb
    (SFmul prec emax (qAbs (SFsub prec emax p1 p2))
       (of_qint64 1000000000000))
    (qMin (qAbs p1) (qAbs p2)).

(** The targets below [n] ms that [position()] does not read back as they
    were given, and whether every target below [n] ms reads back as
    itself or as one millisecond less. *)
Definition short_of (n : nat) : list Z :=
  filter
    (fun pos =>
       match position_pending (seek_target pos) with
       | Some r => negb (r =? pos)
       | None => true
       end)
    (map Z.of_nat (seq 0 n)).

Definition within_one (n : nat) : bool :=
  forallb
    (fun pos =>
       match position_pending (seek_target pos) with
       | Some r => (r =? pos) || (r =? pos - 1)
       | None => false
       end)
    (map Z.of_nat (seq 0 n)).

End Binary64.

(** * Properties *)

(** ** Tactics and basic facts *)

Lemma MediaStatus_eqb_spec a b : reflect (a = b) (MediaStatus_eqb a b).
Proof. destruct a, b; constructor; congruence. Qed.

Lemma State_eqb_spec a b : reflect (a = b) (State_eqb a b).
Proof. destruct a, b; constructor; congruence. Qed.

Lemma Error_eqb_spec a b : reflect (a = b) (Error_eqb a b).
Proof. destruct a, b; constructor; congruence. Qed.

(** Case analysis on the tests of the code, outermost first. *)
Ltac case_if :=
  match goal with
  | |- context [if ?b then _ else _] =>
      lazymatch b with
      | context [if _ then _ else _] => fail
      | _ => destruct b eqn:?
      end
  end.

Lemma loaded_or_end_iff status :
  loaded_or_end status = true <->
  status = LoadedMedia \/ status = EndOfMedia.
Proof.
  destruct status; cbn; split; intros H; try discriminate; auto;
    destruct H; discriminate.
Qed.

Lemma to_qint64_inject (z : Z) : to_qint64 (inject_Z z) = z.
Proof. unfold to_qint64; cbn. apply Z.quot_1_r. Qed.

Lemma app_one_neq {A} (l : list A) (x : A) : l ++ [x] <> l.
Proof.
  intros H. apply (f_equal (@List.length A)) in H.
  rewrite List.length_app in H. cbn in H. lia.
Qed.

(** ** Position *)

(** C1. [position()] returns [duration()] when the media status is
    EndOfMedia; otherwise the pending position in integer milliseconds when
    it is non-negative; otherwise the pts of the video queue when a video
    stream is present, else the pts of the audio queue, in integer
    milliseconds. *)
Theorem position_cases (d : QAVPlayerPrivate) :
  (mediaStatus d = EndOfMedia -> position d = duration d) /\
  (mediaStatus d <> EndOfMedia -> (0 <= d_pendingPosition d)%Q ->
   position d = to_qint64 (d_pendingPosition d * 1000)) /\
  (mediaStatus d <> EndOfMedia -> (d_pendingPosition d < 0)%Q ->
   hasVideo d = true ->
   position d = to_qint64 (Queue.pts (d_videoQueue d) * 1000)) /\
  (mediaStatus d <> EndOfMedia -> (d_pendingPosition d < 0)%Q ->
   hasVideo d = false ->
   position d = to_qint64 (Queue.pts (d_audioQueue d) * 1000)).
Proof.
  unfold position.
  repeat split.
  - intros ->. reflexivity.
  - intros Hs Hp.
    destruct (MediaStatus_eqb_spec (mediaStatus d) EndOfMedia); [contradiction|].
    apply Qle_bool_iff in Hp. now rewrite Hp.
  - intros Hs Hp Hv.
    destruct (MediaStatus_eqb_spec (mediaStatus d) EndOfMedia); [contradiction|].
    destruct (Qle_bool 0 (d_pendingPosition d)) eqn:E.
    + apply Qle_bool_iff in E. exfalso. exact (Qlt_not_le _ _ Hp E).
    + now rewrite Hv.
  - intros Hs Hp Hv.
    destruct (MediaStatus_eqb_spec (mediaStatus d) EndOfMedia); [contradiction|].
    destruct (Qle_bool 0 (d_pendingPosition d)) eqn:E.
    + apply Qle_bool_iff in E. exfalso. exact (Qlt_not_le _ _ Hp E).
    + now rewrite Hv.
Qed.

(** ** Rejected and ignored calls *)

(** C3. [seek(pos)] with [pos < 0], or with [duration() > 0] and
    [pos > duration()], returns at once: no member changes and no signal is
    emitted. *)
Theorem seek_rejected (pos : Z) (d : QAVPlayerPrivate) :
  pos < 0 \/ (0 < duration d /\ duration d < pos) ->
  seek pos d = d.
Proof.
  intros H. unfold seek.
  replace ((pos <? 0) || ((0 <? duration d) && (duration d <? pos)))
    with true; [reflexivity|].
  symmetry. apply orb_true_iff.
  destruct H as [H | [H1 H2]].
  - left. now apply Z.ltb_lt.
  - right. apply andb_true_iff. split; now apply Z.ltb_lt.
Qed.

(** C5. [play()] with an empty source URL, or while the media status is
    InvalidMedia, does nothing: the state, the event list, the gate and the
    emitted signals are as before. *)
Theorem play_ignored (d : QAVPlayerPrivate) :
  d_url d = ""%string \/ mediaStatus d = InvalidMedia ->
  play d = d.
Proof.
  intros H. unfold play.
  replace ((d_url d =? "")%string
           || MediaStatus_eqb (mediaStatus d) InvalidMedia)
    with true; [reflexivity|].
  symmetry. apply orb_true_iff.
  destruct H as [H | H].
  - left. now apply String.eqb_eq.
  - right. rewrite H. reflexivity.
Qed.

(** C8. [setError(kind, msg)] does nothing when the stored error kind is
    already [kind].  Otherwise it stores [kind] and [msg], emits
    [errorOccurred(kind, msg)] and sets the media status to InvalidMedia
    (emitting [mediaStatusChanged] when that is a change); no other member
    changes. *)
Theorem setError_cases (err : Error) (str : string) (d : QAVPlayerPrivate) :
  (d_error d = err -> setError err str d = d) /\
  (d_error d <> err ->
   setError err str d =
     set_emitted
       (d_emitted d ++ errorOccurred err str ::
          (if MediaStatus_eqb (mediaStatus d) InvalidMedia then []
           else [mediaStatusChanged InvalidMedia]))
       (set_mediaStatus InvalidMedia
          (set_errorString str (set_error err d)))).
Proof.
  unfold setError. split; intros H.
  - destruct (Error_eqb_spec (d_error d) err); [reflexivity|contradiction].
  - destruct (Error_eqb_spec (d_error d) err); [contradiction|].
    unfold setMediaStatus, emit, mediaStatus. cbn.
    destruct (MediaStatus_eqb_spec (d_mediaStatus d) InvalidMedia) as [E|E].
    + destruct d; cbn in *; subst; reflexivity.
    + unfold set_emitted, set_mediaStatus; cbn.
      now rewrite <- app_assoc.
Qed.

(** ** What the client calls leave alone *)

Ltac unfold_calls :=
  unfold run_call, play, pause, stop, seek, setState, setMediaStatus,
    event, wait, emit, mediaStatus, state, duration in *.

Lemma run_call_worker_side c d : worker_side (run_call c d) = worker_side d.
Proof.
  destruct c; unfold_calls; repeat (cbn; try case_if); reflexivity.
Qed.

Lemma run_calls_worker_side cs d : worker_side (run_calls cs d) = worker_side d.
Proof.
  revert d. induction cs as [|c cs IH]; intros d; cbn; [reflexivity|].
  unfold run_calls in IH. rewrite IH. apply run_call_worker_side.
Qed.

Lemma run_call_loaded_or_end c d :
  loaded_or_end (mediaStatus d) = true ->
  loaded_or_end (mediaStatus (run_call c d)) = true.
Proof.
  intros H. apply loaded_or_end_iff in H.
  destruct c; unfold_calls;
    destruct H as [H|H]; rewrite H; repeat (cbn; try case_if);
    try rewrite H; reflexivity.
Qed.

Lemma run_calls_loaded_or_end cs d :
  loaded_or_end (mediaStatus d) = true ->
  loaded_or_end (mediaStatus (run_calls cs d)) = true.
Proof.
  revert d. induction cs as [|c cs IH]; intros d H; cbn; [exact H|].
  apply IH. now apply run_call_loaded_or_end.
Qed.

Lemma run_calls_app cs c d :
  run_calls (cs ++ [c]) d = run_call c (run_calls cs d).
Proof. unfold run_calls. now rewrite fold_left_app. Qed.

(** ** The demuxer worker: backpressure, end of media, routing *)

Lemma demux_seek_worker_side env d :
  d_videoStream (fst (demux_seek env d)) = d_videoStream d /\
  d_audioStream (fst (demux_seek env d)) = d_audioStream d /\
  d_posted (fst (demux_seek env d)) = d_posted d.
Proof.
  unfold demux_seek.
  destruct (Qle_bool 0 (d_pendingPosition d)); cbn; [|auto].
  unfold demux_seek_unlocked.
  match goal with
  | |- context [run_calls ?cs ?x] =>
      pose proof (run_calls_worker_side cs x) as H; set (r := run_calls cs x) in *
  end.
  unfold worker_side in H.
  assert (d_videoStream r = d_videoStream d /\
          d_audioStream r = d_audioStream d /\
          d_posted r = d_posted d) as (Hv & Ha & Hp).
  { destruct (0 <=? seek_ret env); cbn in H; inversion H; auto. }
  destruct (qFuzzyCompare (d_pendingPosition r) (d_pendingPosition d)); cbn; auto.
Qed.

Lemma end_reached_iff eof d :
  end_reached eof d = true <->
  eof = true /\
  Queue.isEmpty (d_videoQueue d) = true /\
  Queue.isEmpty (d_audioQueue d) = true /\
  Queue.finished (d_videoQueue d) = false /\
  Queue.finished (d_audioQueue d) = false.
Proof.
  unfold end_reached.
  rewrite !andb_true_iff, !negb_true_iff. tauto.
Qed.

Lemma demux_no_packet_posted eof d :
  d_posted (demux_no_packet eof d) =
    if end_reached eof d then d_posted d ++ [PostEndOfMedia] else d_posted d.
Proof.
  unfold demux_no_packet.
  destruct (end_reached eof d); [|reflexivity].
  unfold hasVideo, hasAudio.
  destruct (0 <=? d_videoStream d); cbn;
    destruct (0 <=? d_audioStream d); reflexivity.
Qed.

(** C7, as the code has it.  While [videoQueue.bytes() +
    audioQueue.bytes()] exceeds 15 * 1024 * 1024, or while the video queue
    and the audio queue both report [enough()], an iteration of the
    demuxer worker reads no packet: it waits (up to 10 ms) and the loop
    tests again, changing nothing.  An iteration reads a packet only when
    neither condition holds, and then it does read.  Whether a stream is
    present is not consulted: the test is the same for any two stream
    indexes, and while one of the two queues does not report [enough()]
    the byte limit alone decides. *)
Theorem demux_backpressure (enough : QAVPacketQueue -> bool)
    (d : QAVPlayerPrivate) :
  maxQueueBytes = 15728640 /\
  (backpressure enough d = true <->
   maxQueueBytes < Queue.bytes (d_videoQueue d) + Queue.bytes (d_audioQueue d)
   \/ (enough (d_videoQueue d) = true /\ enough (d_audioQueue d) = true)) /\
  (forall v a,
     backpressure enough (set_audioStream a (set_videoStream v d))
     = backpressure enough d) /\
  (enough (d_videoQueue d) = false \/ enough (d_audioQueue d) = false ->
   (backpressure enough d = true <->
    maxQueueBytes
    < Queue.bytes (d_videoQueue d) + Queue.bytes (d_audioQueue d))) /\
  (backpressure enough d = true ->
   forall env, doDemux_iteration enough env d = (d, [ActSleep])) /\
  (backpressure enough d = true ->
   forall envs,
     fst (doDemux enough envs d) = d /\
     ~ In ActRead (snd (doDemux enough envs d))) /\
  (backpressure enough d = false ->
   forall env, In ActRead (snd (doDemux_iteration enough env d))).
Proof.
  split; [reflexivity|].
  split.
  { unfold backpressure.
    rewrite orb_true_iff, andb_true_iff, Z.ltb_lt. tauto. }
  split; [reflexivity|].
  split.
  { intros H. unfold backpressure.
    rewrite orb_true_iff, andb_true_iff, Z.ltb_lt.
    split; [|tauto].
    intros [L|[Ev Ea]]; [exact L|].
    destruct H as [H|H]; congruence. }
  split.
  { intros H env. unfold doDemux_iteration. now rewrite H. }
  split.
  { intros H envs. induction envs as [|env envs IH]; cbn.
    - split; [reflexivity|]. intros [].
    - destruct (d_quit d); cbn; [split; [reflexivity|intros []]|].
      replace (doDemux_iteration enough env d) with (d, [ActSleep])
        by (unfold doDemux_iteration; now rewrite H).
      destruct (doDemux enough envs d) as [d2 done2] eqn:E. cbn in *.
      destruct IH as [IH1 IH2]. split; [exact IH1|].
      intros [F|F]; [discriminate|contradiction]. }
  intros H env. unfold doDemux_iteration. rewrite H.
  destruct (demux_seek env d) as [d1 sought].
  destruct (read_packet env); cbn; apply in_or_app; right; cbn; auto.
Qed.

(** C2. In an iteration of the demuxer worker in which [read()] yields no
    packet: if, and only if, the demuxer is at EOF, both packet queues are
    empty and neither is finished, the worker finishes the queue of each
    present stream and posts to the client thread the closure that sets the
    media status to EndOfMedia and then calls [stop()].  In every other
    case the iteration finishes no queue and posts nothing.  The conditions
    are read in the state the seek step of the iteration leaves. *)
Theorem demux_end_of_media (enough : QAVPacketQueue -> bool)
    (env : DemuxerStep) (d : QAVPlayerPrivate) :
  backpressure enough d = false ->
  read_packet env = None ->
  let d1 := fst (demux_seek env d) in
  let d2 := fst (doDemux_iteration enough env d) in
  let reached :=
    read_eof env = true /\
    Queue.isEmpty (d_videoQueue d1) = true /\
    Queue.isEmpty (d_audioQueue d1) = true /\
    Queue.finished (d_videoQueue d1) = false /\
    Queue.finished (d_audioQueue d1) = false in
  (reached <-> d_posted d2 = d_posted d1 ++ [PostEndOfMedia]) /\
  (reached ->
   d_videoQueue d2 =
     (if hasVideo d1 then Queue.finish (d_videoQueue d1)
      else d_videoQueue d1) /\
   d_audioQueue d2 =
     (if hasAudio d1 then Queue.finish (d_audioQueue d1)
      else d_audioQueue d1)) /\
  (~ reached -> d2 = d1) /\
  (forall fuel c,
     run_posted fuel PostEndOfMedia c =
       Some (stop (setMediaStatus EndOfMedia c))).
Proof.
  intros Hb Hr. cbn zeta.
  unfold doDemux_iteration. rewrite Hb, Hr.
  destruct (demux_seek env d) as [d1 sought]. cbn [fst].
  rewrite <- end_reached_iff.
  repeat split.
  - intros H. rewrite demux_no_packet_posted. now rewrite H.
  - intros H. rewrite demux_no_packet_posted in H.
    destruct (end_reached (read_eof env) d1); [reflexivity|].
    symmetry in H. now apply app_one_neq in H.
  - unfold demux_no_packet. rewrite H.
    unfold hasVideo, hasAudio.
    destruct (0 <=? d_videoStream d1); cbn;
      destruct (0 <=? d_audioStream d1); reflexivity.
  - unfold demux_no_packet. rewrite H.
    unfold hasVideo, hasAudio.
    destruct (0 <=? d_videoStream d1); cbn;
      destruct (0 <=? d_audioStream d1); reflexivity.
  - intros H. unfold demux_no_packet.
    destruct (end_reached (read_eof env) d1); [now elim H|reflexivity].
Qed.

(** C10. A packet whose stream index is neither [demuxer.videoStream()]
    nor [demuxer.audioStream()] is dropped: the routing step enqueues it on
    neither queue, and the iteration that read it ends in the state its
    seek step left, both packet queues included. *)
Theorem demux_unmatched_packet (packet : QAVPacket) (d : QAVPlayerPrivate) :
  streamIndex packet <> d_videoStream d ->
  streamIndex packet <> d_audioStream d ->
  demux_route packet d = d /\
  (forall enough env,
     backpressure enough d = false ->
     read_packet env = Some packet ->
     fst (doDemux_iteration enough env d) = fst (demux_seek env d) /\
     d_videoQueue (fst (doDemux_iteration enough env d)) =
       d_videoQueue (fst (demux_seek env d)) /\
     d_audioQueue (fst (doDemux_iteration enough env d)) =
       d_audioQueue (fst (demux_seek env d))).
Proof.
  intros Hv Ha.
  assert (route : forall c, d_videoStream c = d_videoStream d ->
                            d_audioStream c = d_audioStream d ->
                            demux_route packet c = c).
  { intros c Ev Ea. unfold demux_route. rewrite Ev, Ea.
    apply Z.eqb_neq in Hv, Ha. now rewrite Hv, Ha. }
  split; [now apply route|].
  intros enough env Hb Hr.
  assert (fst (doDemux_iteration enough env d) = fst (demux_seek env d)) as E.
  { unfold doDemux_iteration. rewrite Hb, Hr.
    destruct (demux_seek_worker_side env d) as (Ev & Ea & _).
    destruct (demux_seek env d) as [d1 sought]. cbn [fst] in *.
    now apply route. }
  now rewrite E.
Qed.

(** ** Sample runs *)

Example sample_loaded_reached :
  client_turn 1 (doLoad sample_load (setSource "file:///a.mp4" initial))
  = Some sample_loaded.
Proof. reflexivity. Qed.

Example sample_playing_reached :
  processEvents 1 true (play sample_loaded) = Some sample_playing.
Proof. reflexivity. Qed.

(** The end of the media, from the worker to the signals: the worker posts
    the closure, the client thread runs it, and the next tick delivers
    [stopped(duration)] and one empty video frame. *)
Example end_of_media_reached :
  option_map
    (fun d => (mediaStatus d, state d, d_isWaiting d,
               emitted_by (fun _ => d) sample_playing))
    end_of_media_run
  = Some (EndOfMedia, StoppedState, true,
          [mediaStatusChanged EndOfMedia; stateChanged StoppedState;
           stopped 10000; videoFrame_empty]).
Proof. vm_compute. reflexivity. Qed.

Example sample_playing_invalid_reached :
  stale_load_run = Some sample_playing_invalid.
Proof. reflexivity. Qed.

(** ** Accepted seeks *)

(** A [seek] that passes the range test on a loaded player. *)
Lemma seek_accepted (pos : Z) (d : QAVPlayerPrivate) :
  0 <= pos ->
  ~ (0 < duration d /\ duration d < pos) ->
  loaded_or_end (mediaStatus d) = true ->
  seek pos d =
    wait false
      (event EvSeeked
         (setMediaStatus LoadedMedia
            (set_pendingPosition (inject_Z pos / 1000) d))).
Proof.
  intros Hpos Hdur Hst. unfold seek.
  replace ((pos <? 0) || ((0 <? duration d) && (duration d <? pos)))
    with false.
  - rewrite Hst. apply loaded_or_end_iff in Hst.
    unfold mediaStatus, setMediaStatus in *.
    destruct Hst as [H | H]; cbn; rewrite H; reflexivity.
  - symmetry. apply orb_false_iff. split; [now apply Z.ltb_ge|].
    apply andb_false_iff.
    destruct (Z.ltb_spec 0 (duration d)); [right|now left].
    apply Z.ltb_ge. lia.
Qed.

Lemma seek_zero_accepted (d : QAVPlayerPrivate) :
  loaded_or_end (mediaStatus d) = true ->
  seek 0 d =
    wait false
      (event EvSeeked
         (setMediaStatus LoadedMedia (set_pendingPosition (inject_Z 0 / 1000) d))).
Proof. intros H. apply seek_accepted; [lia | lia | exact H]. Qed.

(** ** [play()] at the end of the media *)

(** C4, as the code has it.  [play()] with a non-empty URL while the media
    status is EndOfMedia: when the state is not yet Playing, the state
    becomes Playing first and [seek(0)] is issued after it (the pending
    position becomes 0, the media status goes back to LoadedMedia), the
    seeked event is queued ahead of the played event and the gate is
    released; [stateChanged(Playing)] is emitted before
    [mediaStatusChanged(LoadedMedia)].  When the state is already Playing
    the call only releases the gate. *)
Theorem play_at_end (d : QAVPlayerPrivate) :
  d_url d <> ""%string ->
  mediaStatus d = EndOfMedia ->
  (state d <> PlayingState ->
   play d =
     wait false (event EvPlayed (seek 0 (snd (setState PlayingState d)))) /\
   state (play d) = PlayingState /\
   mediaStatus (play d) = LoadedMedia /\
   (d_pendingPosition (play d) == 0)%Q /\
   d_events (play d) = d_events d ++ [EvSeeked; EvPlayed] /\
   d_isWaiting (play d) = false /\
   emitted_by play d =
     [stateChanged PlayingState; mediaStatusChanged LoadedMedia]) /\
  (state d = PlayingState -> play d = wait false d).
Proof.
  intros Hu Hs.
  assert (Hplay : play d =
            let (changed, d1) := setState PlayingState d in
            wait false
              (if changed then event EvPlayed (seek 0 d1) else d1)).
  { unfold play. apply String.eqb_neq in Hu. rewrite Hu, Hs. reflexivity. }
  split; intros Hst.
  - assert (E : play d =
       wait false (event EvPlayed (seek 0 (snd (setState PlayingState d))))).
    { rewrite Hplay. unfold setState, state in *.
      destruct (State_eqb_spec (d_state d) PlayingState); [contradiction|].
      reflexivity. }
    split; [exact E|].
    unfold emitted_by. rewrite E.
    rewrite seek_zero_accepted.
    2:{ unfold setState, state in *.
        destruct (State_eqb_spec (d_state d) PlayingState); [contradiction|].
        cbn. unfold mediaStatus in Hs. now rewrite Hs. }
    unfold setState, state, mediaStatus in *.
    destruct (State_eqb_spec (d_state d) PlayingState); [contradiction|].
    unfold setMediaStatus. cbn. rewrite Hs. cbn.
    repeat split.
    + now rewrite <- app_assoc.
    + rewrite <- !app_assoc. cbn.
      rewrite skipn_app, skipn_all, Nat.sub_diag. reflexivity.
  - rewrite Hplay. unfold setState, state in *. rewrite Hst. reflexivity.
Qed.

(** ** [stop()] *)

(** C9, as the code has it.  [stop()] while the media status is
    LoadedMedia or EndOfMedia and the state is not Stopped: the state
    becomes Stopped, the gate is released and one event is pushed; that
    event, when it is processed, emits [stopped(position)], then one empty
    video frame when a video stream is present, arms the gate again and is
    consumed.  [stop()] while the media status is NoMedia or InvalidMedia
    does nothing, whatever the state is. *)
Theorem stop_loaded (d : QAVPlayerPrivate) :
  (mediaStatus d = LoadedMedia \/ mediaStatus d = EndOfMedia ->
   state d <> StoppedState ->
   state (stop d) = StoppedState /\
   d_isWaiting (stop d) = false /\
   d_events (stop d) = d_events d ++ [EvStopped] /\
   emitted_by stop d = [stateChanged StoppedState] /\
   (forall tick c,
      fst (run_event EvStopped tick c) = true /\
      d_emitted (snd (run_event EvStopped tick c)) =
        d_emitted c ++ stopped (position c) ::
          (if hasVideo c then [videoFrame_empty] else []) /\
      d_isWaiting (snd (run_event EvStopped tick c)) = true) /\
   (forall tick c,
      d_events c = [EvStopped] -> isSeeking c = false ->
      processEvents 1 tick c =
        Some (set_events [] (snd (run_event EvStopped tick c))))) /\
  (mediaStatus d = NoMedia \/ mediaStatus d = InvalidMedia -> stop d = d).
Proof.
  split.
  2:{ intros H. unfold stop. destruct H as [H|H]; rewrite H; reflexivity. }
  intros Hs Hst.
  assert (E : stop d =
            event EvStopped (wait false (snd (setState StoppedState d)))).
  { unfold stop. apply loaded_or_end_iff in Hs. rewrite Hs.
    unfold setState, state in *.
    destruct (State_eqb_spec (d_state d) StoppedState); [contradiction|].
    reflexivity. }
  unfold emitted_by. rewrite E. unfold setState, state in *.
  destruct (State_eqb_spec (d_state d) StoppedState); [contradiction|].
  cbn. repeat split.
  - rewrite skipn_app, skipn_all, Nat.sub_diag. reflexivity.
  - unfold hasVideo, emit. cbn. destruct (0 <=? d_videoStream c); cbn;
      [now rewrite <- app_assoc | reflexivity].
  - intros tick c He Hp. unfold processEvents. rewrite He, Hp.
    cbn [processEvents_loop]. rewrite He.
    unfold run_event, hasVideo. cbn.
    destruct (0 <=? d_videoStream c); cbn; rewrite He; reflexivity.
Qed.

(** ** [qFuzzyCompare] on seek targets *)

Lemma qFuzzyCompare_iff (x y : Q) :
  qFuzzyCompare x y = true <->
  (Qabs (x - y) * 1000000000000 <= Qabs x /\
   Qabs (x - y) * 1000000000000 <= Qabs y)%Q.
Proof.
  unfold qFuzzyCompare. rewrite Qle_bool_iff. apply Q.min_glb_iff.
Qed.

Lemma qFuzzyCompare_same (x y : Q) : (x == y)%Q -> qFuzzyCompare x y = true.
Proof.
  intros H. apply qFuzzyCompare_iff.
  assert (E : (Qabs (x - y) * 1000000000000 == 0)%Q).
  { rewrite H. unfold Qminus. rewrite Qplus_opp_r. reflexivity. }
  rewrite E. split; apply Qabs_nonneg.
Qed.

Lemma seconds_eq (ms : Z) : (inject_Z ms / 1000 = ms # 1000)%Q.
Proof. unfold Qdiv, Qmult, inject_Z; cbn. now rewrite Z.mul_1_r. Qed.

(** ** Seeked events *)

(** Running one seeked event at a tick when no seek is pending. *)
Lemma run_event_seeked (c : QAVPlayerPrivate) :
  isSeeking c = false ->
  exists c1,
    run_event EvSeeked true c = (true, c1) /\
    d_events c1 = d_events c /\
    d_emitted c1 = d_emitted c ++ [seeked (position c)] /\
    d_pendingPosition c1 = d_pendingPosition c /\
    position c1 = position c.
Proof.
  intros H. unfold run_event. rewrite H. cbn [negb orb].
  eexists. split; [reflexivity|].
  unfold state, emit. cbn.
  destruct (State_eqb (d_state c) PausedState
            || State_eqb (d_state c) StoppedState); cbn; auto.
Qed.

(** [k] queued seeked events fire [k] seeked signals at the first tick
    after the pending position is cleared. *)
Lemma processEvents_loop_seeked (k : nat) :
  forall c,
    d_events c = repeat EvSeeked k ->
    isSeeking c = false ->
    exists c',
      processEvents_loop k true c = Some c' /\
      d_events c' = [] /\
      d_emitted c' = d_emitted c ++ repeat (seeked (position c)) k.
Proof.
  induction k as [|k IH]; intros c He Hs.
  - exists c. cbn in *. rewrite He. now rewrite app_nil_r.
  - cbn [processEvents_loop]. rewrite He. cbn [repeat].
    destruct (run_event_seeked c Hs) as (c1 & R & E1 & E2 & E3 & E4).
    rewrite R.
    destruct (IH (set_events (tl (d_events c1)) c1)) as (c' & P & F1 & F2).
    + cbn. rewrite E1, He. reflexivity.
    + unfold isSeeking in *. cbn. now rewrite E3.
    + exists c'. split; [exact P|]. split; [exact F1|].
      rewrite F2. cbn [d_emitted set_events]. rewrite E2.
      replace (position (set_events (tl (d_events c1)) c1)) with (position c)
        by (rewrite <- E4; reflexivity).
      now rewrite <- app_assoc.
Qed.

Lemma demux_seek_unlocked_newer (env : DemuxerStep) (cs : list ClientCall)
    (q : Z) (d : QAVPlayerPrivate) :
  seek_window env = cs ++ [CallSeek q] ->
  loaded_or_end (mediaStatus d) = true ->
  0 <= q -> ~ (0 < duration d /\ duration d < q) ->
  d_pendingPosition (demux_seek_unlocked env d) = (inject_Z q / 1000)%Q.
Proof.
  intros Hw Hs Hq Hd. unfold demux_seek_unlocked. rewrite Hw, run_calls_app.
  set (d0 := if 0 <=? seek_ret env then _ else d).
  assert (H0 : mediaStatus d0 = mediaStatus d /\ d_duration d0 = d_duration d).
  { subst d0. destruct (0 <=? seek_ret env); split; reflexivity. }
  destruct H0 as [Hm0 Hd0].
  pose proof (run_calls_worker_side cs d0) as W. unfold worker_side in W.
  assert (Hdur : duration (run_calls cs d0) = duration d).
  { unfold duration. inversion W as [[_a _b _c _d Hx _e _f _g]]. now rewrite Hx, Hd0. }
  cbn [run_call]. rewrite seek_accepted.
  - unfold setMediaStatus. case_if; reflexivity.
  - exact Hq.
  - now rewrite Hdur.
  - apply run_calls_loaded_or_end. now rewrite Hm0.
Qed.

Lemma seconds_nonneg (ms : Z) : 0 <= ms -> Qle_bool 0 (inject_Z ms / 1000) = true.
Proof.
  intros H. rewrite seconds_eq. unfold Qle_bool. cbn. apply Z.leb_le. lia.
Qed.

(** ** The seek step of the demuxer worker *)

(** C6, as the code has it.  The seek step snapshots the pending position
    as [pos] and seeks.  When the lock is taken again, the pending position
    is reset to -1 exactly when [qFuzzyCompare] finds it equal to [pos]:
    when it still is [pos], and also when a newer [seek()] wrote a target
    that [qFuzzyCompare] does not tell from [pos].  A newer target that
    [qFuzzyCompare] tells from [pos] stays pending, and the next seek step
    goes to that latest target.  Every accepted [seek()] queues a seeked
    event of its own, and the first tick after the pending position is
    cleared fires one [seeked] signal for each of them. *)
Theorem demux_seek_pending (env : DemuxerStep) (d : QAVPlayerPrivate) :
  (0 <= d_pendingPosition d)%Q ->
  let pos := d_pendingPosition d in
  let relocked := demux_seek_unlocked env d in
  let d' := fst (demux_seek env d) in
  snd (demux_seek env d) = [ActSeek pos] /\
  (qFuzzyCompare (d_pendingPosition relocked) pos = true ->
   d' = set_pendingPosition (-1) relocked) /\
  (qFuzzyCompare (d_pendingPosition relocked) pos = false -> d' = relocked) /\
  ((d_pendingPosition relocked == pos)%Q -> d_pendingPosition d' = (-1)%Q) /\
  (forall cs q,
     seek_window env = cs ++ [CallSeek q] ->
     loaded_or_end (mediaStatus d) = true ->
     0 <= q -> ~ (0 < duration d /\ duration d < q) ->
     qFuzzyCompare (inject_Z q / 1000) pos = false ->
     d_pendingPosition d' = (inject_Z q / 1000)%Q /\
     forall env', snd (demux_seek env' d') = [ActSeek (inject_Z q / 1000)]) /\
  (forall cs q,
     seek_window env = cs ++ [CallSeek q] ->
     loaded_or_end (mediaStatus d) = true ->
     0 <= q -> ~ (0 < duration d /\ duration d < q) ->
     qFuzzyCompare (inject_Z q / 1000) pos = true ->
     d_pendingPosition d' = (-1)%Q) /\
  (forall q c,
     loaded_or_end (mediaStatus c) = true ->
     0 <= q -> ~ (0 < duration c /\ duration c < q) ->
     d_events (seek q c) = d_events c ++ [EvSeeked]) /\
  (forall k c,
     d_events c = repeat EvSeeked k -> isSeeking c = false ->
     exists c',
       processEvents k true c = Some c' /\
       d_events c' = [] /\
       d_emitted c' = d_emitted c ++ repeat (seeked (position c)) k).
Proof.
  intros Hpend. cbn zeta.
  apply Qle_bool_iff in Hpend.
  unfold demux_seek. rewrite Hpend. cbn [fst snd].
  set (relocked := demux_seek_unlocked env d).
  split; [reflexivity|].
  split; [now intros ->|].
  split; [now intros ->|].
  split.
  { intros E. now rewrite (qFuzzyCompare_same _ _ E). }
  split.
  { intros cs q Hw Hs Hq Hd Hf.
    assert (E : d_pendingPosition relocked = (inject_Z q / 1000)%Q)
      by (now apply (demux_seek_unlocked_newer env cs)).
    rewrite E, Hf. split; [exact E|].
    intros env'. rewrite E, (seconds_nonneg q Hq). reflexivity. }
  split.
  { intros cs q Hw Hs Hq Hd Hf.
    assert (E : d_pendingPosition relocked = (inject_Z q / 1000)%Q)
      by (now apply (demux_seek_unlocked_newer env cs)).
    rewrite E, Hf. reflexivity. }
  split.
  { intros q c Hs Hq Hd. rewrite seek_accepted by assumption.
    unfold setMediaStatus. case_if; reflexivity. }
  intros k c He Hs. unfold processEvents.
  destruct (processEvents_loop_seeked k c He Hs) as (c' & P & F1 & F2).
  exists c'. rewrite Hs.
  destruct (d_events c) eqn:Ec.
  - destruct k; [|discriminate]. cbn in P. rewrite Ec in P. auto.
  - auto.
Qed.

(** * The claims on sample runs *)

(** C4, as it was stated, puts [seek(0)] before the transition to Playing.
    On a stopped player at the end of the media [play()] emits
    [stateChanged(Playing)] first and [mediaStatusChanged(LoadedMedia)],
    the signal of [seek(0)], after it. *)
Lemma play_at_end_seek_first_counterexample :
  d_url sample_ended <> ""%string /\
  mediaStatus sample_ended = EndOfMedia /\
  emitted_by play sample_ended =
    [stateChanged PlayingState; mediaStatusChanged LoadedMedia] /\
  emitted_before (is_mediaStatusChanged LoadedMedia)
    (is_stateChanged PlayingState) (emitted_by play sample_ended) = false /\
  state (snd (setState PlayingState sample_ended)) = PlayingState /\
  play sample_ended =
    wait false
      (event EvPlayed (seek 0 (snd (setState PlayingState sample_ended)))).
Proof.
  split; [discriminate|]. repeat split.
Qed.

(** C9, as it was stated, has no condition on the media status.  A player
    that is playing while its media status is InvalidMedia ignores
    [stop()]: the state stays Playing and no event is pushed.  The last
    part shows a run that leads to such a player. *)
Lemma stop_not_loaded_counterexample :
  state sample_playing_invalid <> StoppedState /\
  stop sample_playing_invalid = sample_playing_invalid /\
  state (stop sample_playing_invalid) = PlayingState /\
  d_events (stop sample_playing_invalid) = [] /\
  stale_load_run = Some sample_playing_invalid.
Proof.
  split; [discriminate|]. repeat split.
Qed.

(** C7, as it was stated, counts the queues of the streams that are
    present.  On a playing file with a video stream and no audio stream,
    with sixteen packets and 16 KiB in the video queue, the one queue that
    is present reports [enough()] and the byte limit is far; the worker
    reads all the same, because the code asks the audio queue too, and
    that queue is empty.  Twenty-four iterations read and queue
    twenty-four more packets and never wait. *)
Lemma backpressure_absent_stream_counterexample :
  hasVideo sample_video_only = true /\
  hasAudio sample_video_only = false /\
  enough_packets 16 (d_videoQueue sample_video_only) = true /\
  enough_packets 16 (d_audioQueue sample_video_only) = false /\
  Queue.bytes (d_videoQueue sample_video_only)
  + Queue.bytes (d_audioQueue sample_video_only) = 16384 /\
  backpressure (enough_packets 16) sample_video_only = false /\
  doDemux_iteration (enough_packets 16) video_step sample_video_only =
    (demux_route video_packet sample_video_only, [ActRead]) /\
  List.length
    (q_packets
       (d_videoQueue
          (fst (doDemux_iteration (enough_packets 16) video_step
                  sample_video_only)))) = 17%nat /\
  snd (doDemux (enough_packets 16) (repeat video_step 24) sample_video_only)
    = repeat ActRead 24 /\
  List.length
    (q_packets
       (d_videoQueue
          (fst (doDemux (enough_packets 16) (repeat video_step 24)
                  sample_video_only)))) = 40%nat.
Proof.
  repeat split.
Qed.

(** C6, as it was stated, has one seeked event fire for coalesced seeks
    and resets the pending position only when it equals the snapshot.
    With [seek(3000)] pending and [seek(7000)] called during the worker's
    seek, the worker seeks to 3 s, leaves 7 s pending, seeks to 7 s and
    clears the pending position; the next tick then fires two seeked
    signals.  And a newer target that [qFuzzyCompare] does not tell from
    the snapshot is reset with it, although it differs. *)
Lemma coalesced_seeks_counterexample :
  snd (doDemux (enough_packets 16) [newer_seek_step; quiet_step]
         (seek 3000 sample_playing)) =
    [ActSeek (3000 # 1000); ActRead; ActSleep;
     ActSeek (7000 # 1000); ActRead; ActSleep] /\
  d_pendingPosition
    (fst (doDemux (enough_packets 16) [newer_seek_step; quiet_step]
            (seek 3000 sample_playing))) = (-1)%Q /\
  option_map (fun c => count_seeked (d_emitted c))
    (processEvents 2 true
       (fst (doDemux (enough_packets 16) [newer_seek_step; quiet_step]
               (seek 3000 sample_playing)))) = Some 2%nat /\
  d_pendingPosition (seek 2000000000000 sample_live)
    = (2000000000000 # 1000) /\
  d_pendingPosition
    (demux_seek_unlocked far_seek_step (seek 2000000000000 sample_live))
    = (2000000000001 # 1000) /\
  d_pendingPosition
    (fst (demux_seek far_seek_step (seek 2000000000000 sample_live)))
    = (-1)%Q.
Proof.
  repeat split.
Qed.

(** C1 on samples: at the end of the media, with a seek pending, and while
    playing. *)
Lemma position_cases_witness :
  position sample_ended = 10000 /\
  position (seek 5000 sample_loaded) = 5000 /\
  position sample_playing = 0.
Proof.
  destruct (position_cases sample_ended) as (H1 & _).
  destruct (position_cases (seek 5000 sample_loaded)) as (_ & H2 & _).
  destruct (position_cases sample_playing) as (_ & _ & H3 & _).
  split; [|split].
  - rewrite H1; reflexivity.
  - rewrite H2; [reflexivity | discriminate | discriminate].
  - rewrite H3; [reflexivity | discriminate | reflexivity | reflexivity].
Defined.

(** C2 on a sample: the playing sample with empty queues, at EOF. *)
Lemma demux_end_of_media_witness :
  d_posted (fst (doDemux_iteration (enough_packets 16) eof_step sample_playing))
    = [PostEndOfMedia] /\
  d_posted (fst (doDemux_iteration (enough_packets 16) quiet_step sample_playing))
    = [].
Proof.
  pose proof (demux_end_of_media (enough_packets 16) eof_step sample_playing
                eq_refl eq_refl) as H.
  pose proof (demux_end_of_media (enough_packets 16) quiet_step sample_playing
                eq_refl eq_refl) as H'.
  cbv zeta in H, H'.
  destruct H as ((H & _) & _). destruct H' as (_ & _ & H' & _).
  split.
  - rewrite H; [reflexivity | repeat split].
  - rewrite H'; [reflexivity | intros (E & _); discriminate E].
Defined.

(** C3 on a sample of 10000 ms: [seek(-1)] and [seek(10001)]. *)
Lemma seek_rejected_witness :
  seek (-1) sample_loaded = sample_loaded /\
  seek 10001 sample_loaded = sample_loaded.
Proof.
  split; apply seek_rejected.
  - left. reflexivity.
  - right. split; reflexivity.
Defined.

(** C4 on a sample. *)
Lemma play_at_end_witness :
  state (play sample_ended) = PlayingState /\
  mediaStatus (play sample_ended) = LoadedMedia /\
  d_events (play sample_ended) = [EvSeeked; EvPlayed].
Proof.
  assert (Hu : d_url sample_ended <> ""%string) by discriminate.
  assert (Hst : state sample_ended <> PlayingState) by discriminate.
  destruct (play_at_end sample_ended Hu eq_refl) as (H & _).
  destruct (H Hst) as (_ & H1 & H2 & _ & H3 & _).
  split; [exact H1|]. split; [exact H2|exact H3].
Defined.

(** C5 on samples: no source, and an invalid source. *)
Lemma play_ignored_witness :
  play initial = initial /\
  play sample_playing_invalid = sample_playing_invalid.
Proof.
  split; apply play_ignored.
  - left. reflexivity.
  - right. reflexivity.
Defined.

(** C6 on a sample: [seek(7000)] arrives while the worker seeks to 3 s. *)
Lemma demux_seek_pending_witness :
  d_pendingPosition
    (fst (demux_seek newer_seek_step (seek 3000 sample_playing)))
    = (inject_Z 7000 / 1000)%Q /\
  d_pendingPosition
    (fst (demux_seek quiet_step (seek 3000 sample_playing))) = (-1)%Q.
Proof.
  assert (Hp : (0 <= d_pendingPosition (seek 3000 sample_playing))%Q)
    by discriminate.
  pose proof (demux_seek_pending newer_seek_step _ Hp) as H.
  pose proof (demux_seek_pending quiet_step _ Hp) as H'.
  cbv zeta in H, H'.
  destruct H as (_ & _ & _ & _ & H & _).
  destruct H' as (_ & _ & _ & H' & _).
  split.
  - apply (H [] 7000); try reflexivity.
    + discriminate.
    + intros (_ & F). discriminate F.
  - apply H'. reflexivity.
Defined.

(** C7 on samples: a queue of 16 MiB, and empty queues. *)
Lemma demux_backpressure_witness :
  doDemux_iteration (enough_packets 16) quiet_step sample_full
    = (sample_full, [ActSleep]) /\
  In ActRead
    (snd (doDemux_iteration (enough_packets 16) quiet_step sample_playing)).
Proof.
  destruct (demux_backpressure (enough_packets 16) sample_full)
    as (_ & _ & _ & _ & H & _).
  destruct (demux_backpressure (enough_packets 16) sample_playing)
    as (_ & _ & _ & _ & _ & _ & H').
  split.
  - apply H. reflexivity.
  - apply H'. reflexivity.
Defined.

(** C8 on samples: a second resource error, and a first one. *)
Lemma setError_cases_witness :
  setError ResourceError "No codecs found" sample_playing_invalid
    = sample_playing_invalid /\
  mediaStatus (setError ResourceError "No codecs found" sample_loaded)
    = InvalidMedia.
Proof.
  destruct (setError_cases ResourceError "No codecs found"
              sample_playing_invalid) as (H & _).
  destruct (setError_cases ResourceError "No codecs found" sample_loaded)
    as (_ & H').
  split.
  - apply H. reflexivity.
  - rewrite H'; [reflexivity | discriminate].
Defined.

(** C9 on samples: the playing sample, and the two players that are not
    loaded. *)
Lemma stop_loaded_witness :
  state (stop sample_playing) = StoppedState /\
  d_isWaiting (stop sample_playing) = false /\
  d_events (stop sample_playing) = [EvStopped] /\
  stop sample_opened = sample_opened /\
  stop sample_playing_invalid = sample_playing_invalid.
Proof.
  assert (Hst : state sample_playing <> StoppedState) by discriminate.
  destruct (stop_loaded sample_playing) as (H & _).
  destruct (H (or_introl eq_refl) Hst) as (H1 & H2 & H3 & _).
  destruct (stop_loaded sample_opened) as (_ & N).
  destruct (stop_loaded sample_playing_invalid) as (_ & I).
  split; [exact H1|]. split; [exact H2|]. split; [exact H3|].
  split; [exact (N (or_introl eq_refl)) | exact (I (or_intror eq_refl))].
Defined.

(** C10 on a sample: a packet of stream 2 when video is 0 and audio 1. *)
Lemma demux_unmatched_packet_witness :
  demux_route subtitle_packet sample_playing = sample_playing /\
  fst (doDemux_iteration (enough_packets 16) subtitle_step sample_playing)
    = sample_playing.
Proof.
  assert (Hv : streamIndex subtitle_packet <> d_videoStream sample_playing)
    by discriminate.
  assert (Ha : streamIndex subtitle_packet <> d_audioStream sample_playing)
    by discriminate.
  destruct (demux_unmatched_packet subtitle_packet sample_playing Hv Ha)
    as (H & H').
  split; [exact H|].
  destruct (H' (enough_packets 16) subtitle_step eq_refl eq_refl) as (E & _).
  rewrite E. reflexivity.
Defined.

(** * Further properties of the code *)

(** ** Calls on a loaded player *)

(** X1. An accepted [seek(pos)] on a loaded player takes over what
    [position()] returns: from the call on it is the stored target
    [pos / 1000.0] converted back, [qint64(pos / 1000.0 * 1000)], whatever
    the packet queues hold.  The player is seeking, the media status is
    LoadedMedia, the gate is released, and no deferred event is processed
    while the seek is pending. *)
Theorem seek_then_position (pos : Z) (d : QAVPlayerPrivate) :
  loaded_or_end (mediaStatus d) = true ->
  0 <= pos ->
  ~ (0 < duration d /\ duration d < pos) ->
  d_pendingPosition (seek pos d) = (inject_Z pos / 1000)%Q /\
  position (seek pos d) = to_qint64 (inject_Z pos / 1000 * 1000) /\
  isSeeking (seek pos d) = true /\
  mediaStatus (seek pos d) = LoadedMedia /\
  d_isWaiting (seek pos d) = false /\
  (forall fuel tick, processEvents fuel tick (seek pos d) = Some (seek pos d)).
Proof.
  intros Hs Hpos Hdur. rewrite (seek_accepted pos d Hpos Hdur Hs).
  set (d1 := set_pendingPosition (inject_Z pos / 1000) d).
  assert (Hst : d_mediaStatus (setMediaStatus LoadedMedia d1) = LoadedMedia).
  { unfold setMediaStatus.
    destruct (MediaStatus_eqb_spec (d_mediaStatus d1) LoadedMedia) as [E|E];
      [exact E | reflexivity]. }
  assert (Hp : d_pendingPosition (setMediaStatus LoadedMedia d1)
               = (inject_Z pos / 1000)%Q).
  { unfold setMediaStatus. case_if; reflexivity. }
  assert (Hseek : isSeeking
            (wait false (event EvSeeked (setMediaStatus LoadedMedia d1)))
          = true).
  { unfold isSeeking. cbn. rewrite Hp. now apply seconds_nonneg. }
  split; [exact Hp|].
  split.
  { unfold position, mediaStatus. cbn. rewrite Hst. cbn.
    rewrite Hp, (seconds_nonneg pos Hpos). reflexivity. }
  split; [exact Hseek|].
  split; [exact Hst|].
  split; [reflexivity|].
  intros fuel tick. unfold processEvents. rewrite Hseek.
  destruct (d_events _); reflexivity.
Qed.

(** X2. [play()] on a loaded player is idempotent: a second call changes
    nothing, so the state changes once and one played event is queued. *)
Theorem play_twice (d : QAVPlayerPrivate) :
  d_url d <> ""%string ->
  loaded_or_end (mediaStatus d) = true ->
  play (play d) = play d.
Proof.
  intros Hu Hs. apply String.eqb_neq in Hu. apply loaded_or_end_iff in Hs.
  unfold play, seek, setState, setMediaStatus, event, wait, emit,
    mediaStatus, duration in *.
  destruct Hs as [Hs|Hs]; rewrite Hu, Hs;
    repeat (cbn; rewrite ?Hu, ?Hs; try case_if);
    first [reflexivity | congruence | cbn in *; congruence].
Qed.

(** X3. A second [pause()] on a loaded player queues no second event and
    emits nothing; it arms the gate at once. *)
Theorem pause_twice (d : QAVPlayerPrivate) :
  loaded_or_end (mediaStatus d) = true ->
  pause (pause d) = wait true (pause d).
Proof.
  intros Hs. apply loaded_or_end_iff in Hs.
  unfold pause, seek, setState, setMediaStatus, event, wait, emit,
    mediaStatus, duration in *.
  destruct Hs as [Hs|Hs]; rewrite Hs;
    repeat (cbn; rewrite ?Hs; try case_if);
    first [reflexivity | congruence | cbn in *; congruence].
Qed.

(** X4. A second [stop()] on a loaded player queues no second event and
    emits nothing; it arms the gate at once, before the stopped event of
    the first call has been processed. *)
Theorem stop_twice (d : QAVPlayerPrivate) :
  loaded_or_end (mediaStatus d) = true ->
  stop (stop d) = wait true (stop d).
Proof.
  intros Hs. apply loaded_or_end_iff in Hs.
  unfold stop, setState, setMediaStatus, event, wait, emit, mediaStatus in *.
  destruct Hs as [Hs|Hs]; rewrite Hs;
    repeat (cbn; rewrite ?Hs; try case_if);
    first [reflexivity | congruence | cbn in *; congruence].
Qed.

(** ** The drain of the deferred events *)

Lemma events_weight_app l1 l2 :
  events_weight (l1 ++ l2) = (events_weight l1 + events_weight l2)%nat.
Proof. unfold events_weight. now rewrite map_app, list_sum_app. Qed.

(** On a loaded player an event leaves the media status loaded and queues
    less than it weighs. *)
Lemma run_event_loaded (ev : Event) (tick : bool) (d : QAVPlayerPrivate) :
  loaded_or_end (mediaStatus d) = true ->
  loaded_or_end (mediaStatus (snd (run_event ev tick d))) = true /\
  exists added,
    d_events (snd (run_event ev tick d)) = d_events d ++ added /\
    (events_weight added < event_weight ev)%nat.
Proof.
  intros Hs. apply loaded_or_end_iff in Hs.
  unfold run_event, play, pause, seek, setState, setMediaStatus, event,
    wait, emit, mediaStatus, state, duration, hasVideo, isSeeking in *.
  destruct ev; destruct Hs as [Hs|Hs]; rewrite ?Hs;
    repeat (cbn; rewrite ?Hs; try case_if);
    (split; [reflexivity|]);
    rewrite <- ?app_assoc; cbn [app];
    first [ exists []; split; [now rewrite app_nil_r | cbn; lia]
          | eexists; split; [reflexivity | cbn; lia] ].
Qed.

Lemma processEvents_loop_terminates (tick : bool) (fuel : nat) :
  forall d,
    loaded_or_end (mediaStatus d) = true ->
    (events_weight (d_events d) <= fuel)%nat ->
    exists d',
      processEvents_loop fuel tick d = Some d' /\
      loaded_or_end (mediaStatus d') = true.
Proof.
  induction fuel as [|fuel IH]; intros d Hs Hw.
  - destruct (d_events d) as [|ev rest] eqn:E.
    + exists d. cbn. now rewrite E.
    + exfalso. cbn in Hw. destruct ev; cbn in Hw; lia.
  - cbn [processEvents_loop].
    destruct (d_events d) as [|ev rest] eqn:E; [now exists d|].
    destruct (run_event_loaded ev tick d Hs) as (Hs1 & added & Ev & Hlt).
    destruct (run_event ev tick d) as [consumed d1]. cbn [snd] in *.
    destruct consumed; [|now exists d1].
    apply IH.
    + exact Hs1.
    + unfold set_events. cbn [d_events]. rewrite Ev, E. cbn [tl app].
      rewrite events_weight_app.
      change (events_weight (ev :: rest))
        with (event_weight ev + events_weight rest)%nat in Hw.
      lia.
Qed.

Lemma events_weight_length l : (events_weight l <= 3 * List.length l)%nat.
Proof.
  induction l as [|ev l IH]; [cbn; lia|].
  change (events_weight (ev :: l))
    with (event_weight ev + events_weight l)%nat.
  cbn [List.length]. destruct ev; cbn [event_weight]; lia.
Qed.

(** X5. While the media is loaded or at its end, [processEvents] always
    returns: a deferred call that is consumed queues at most two events
    and none of them is a deferred call, so three iterations per queued
    event are enough. *)
Theorem processEvents_terminates (tick : bool) (fuel : nat)
    (d : QAVPlayerPrivate) :
  loaded_or_end (mediaStatus d) = true ->
  (3 * List.length (d_events d) <= fuel)%nat ->
  exists d',
    processEvents fuel tick d = Some d' /\
    loaded_or_end (mediaStatus d') = true.
Proof.
  intros Hs Hf. unfold processEvents.
  destruct (d_events d) as [|ev rest] eqn:E; [now exists d|].
  destruct (isSeeking d); [now exists d|].
  apply processEvents_loop_terminates; [exact Hs|].
  rewrite E. pose proof (events_weight_length (ev :: rest)). lia.
Qed.

Lemma processEvents_loop_requeues (tick : bool) (fuel : nat) :
  forall d,
    mediaStatus d = NoMedia ->
    (d_url d =? "")%string = false ->
    d_events d <> [] ->
    forallb deferred_call (d_events d) = true ->
    processEvents_loop fuel tick d = None.
Proof.
  induction fuel as [|fuel IH]; intros d Hs Hu Hne Hall.
  - cbn. destruct (d_events d); [contradiction|reflexivity].
  - cbn [processEvents_loop].
    destruct (d_events d) as [|ev rest] eqn:E; [contradiction|].
    cbn in Hall. apply andb_true_iff in Hall. destruct Hall as [Hev Hrest].
    unfold mediaStatus in Hs.
    destruct ev; try discriminate Hev; cbn [run_event].
    + unfold play, mediaStatus. rewrite Hu, Hs. cbn.
      apply IH; cbn; try assumption.
      * rewrite E. cbn. now destruct rest.
      * rewrite E. cbn. rewrite forallb_app, Hrest. reflexivity.
    + unfold pause, mediaStatus. rewrite Hs. cbn.
      apply IH; cbn; try assumption.
      * rewrite E. cbn. now destruct rest.
      * rewrite E. cbn. rewrite forallb_app, Hrest. reflexivity.
Qed.

(** X6. While nothing is loaded (NoMedia, with a source URL), a drain that
    meets only deferred [play()] and [pause()] calls never ends: each call
    queues itself again behind the others, so no number of iterations
    empties the list. *)
Theorem processEvents_requeues_forever (tick : bool) (d : QAVPlayerPrivate) :
  mediaStatus d = NoMedia ->
  d_url d <> ""%string ->
  isSeeking d = false ->
  d_events d <> [] ->
  forallb deferred_call (d_events d) = true ->
  forall fuel, processEvents fuel tick d = None.
Proof.
  intros Hs Hu Hseek Hne Hall fuel. apply String.eqb_neq in Hu.
  unfold processEvents. rewrite Hseek.
  destruct (d_events d) as [|ev rest] eqn:E; [contradiction|].
  apply processEvents_loop_requeues; try assumption; rewrite E; assumption.
Qed.

(** ** What each part of the code leaves alone *)

Lemma run_call_frame c d : call_frame (run_call c d) = call_frame d.
Proof.
  unfold call_frame, worker_side.
  destruct c; unfold_calls; repeat (cbn; try case_if); reflexivity.
Qed.

Lemma run_calls_frame cs d : call_frame (run_calls cs d) = call_frame d.
Proof.
  revert d. induction cs as [|c cs IH]; intros d; cbn; [reflexivity|].
  unfold run_calls in IH. rewrite IH. apply run_call_frame.
Qed.

Lemma run_event_frame ev tick d :
  call_frame (snd (run_event ev tick d)) = call_frame d.
Proof.
  unfold call_frame, worker_side, run_event, hasVideo, isSeeking.
  destruct ev; unfold_calls; repeat (cbn; try case_if); reflexivity.
Qed.

Lemma processEvents_loop_frame fuel tick :
  forall d d',
    processEvents_loop fuel tick d = Some d' -> call_frame d' = call_frame d.
Proof.
  induction fuel as [|fuel IH]; intros d d' H; cbn in H.
  - destruct (d_events d); [|discriminate]. now inversion H.
  - destruct (d_events d) as [|ev rest]; [now inversion H|].
    pose proof (run_event_frame ev tick d) as F.
    destruct (run_event ev tick d) as [consumed d1]. cbn [snd] in F.
    destruct consumed; [|inversion H; subst; exact F].
    apply IH in H. rewrite H. exact F.
Qed.

Lemma processEvents_frame fuel tick d d' :
  processEvents fuel tick d = Some d' -> call_frame d' = call_frame d.
Proof.
  unfold processEvents. intros H.
  destruct (d_events d); [now inversion H|].
  destruct (isSeeking d); [now inversion H|].
  now apply processEvents_loop_frame in H.
Qed.

(** X7. [play()], [pause()], [stop()], [seek()] and the deferred events,
    however many run, never write the packet queues, the stream indexes,
    the duration, [quit], the posted closures, the URL, the error and its
    string, [seekable] or the video frame rate. *)
Theorem calls_and_events_frame (d : QAVPlayerPrivate) :
  (forall cs, call_frame (run_calls cs d) = call_frame d) /\
  (forall ev tick, call_frame (snd (run_event ev tick d)) = call_frame d) /\
  (forall fuel tick d',
     processEvents fuel tick d = Some d' -> call_frame d' = call_frame d).
Proof.
  split; [intros cs; apply run_calls_frame|].
  split; [intros ev tick; apply run_event_frame|].
  intros fuel tick d'. apply processEvents_frame.
Qed.

Lemma demux_iteration_client_side enough env d :
  seek_window env = [] ->
  client_side (fst (doDemux_iteration enough env d)) = client_side d.
Proof.
  intros Hw.
  unfold doDemux_iteration, demux_seek, demux_seek_unlocked, demux_no_packet,
    demux_route, dispatch. rewrite Hw. cbn [run_calls fold_left].
  destruct (backpressure enough d); [reflexivity|].
  repeat (cbn; try case_if); try reflexivity;
    destruct (read_packet env); repeat (cbn; try case_if); reflexivity.
Qed.

(** X8. The demuxer worker, left alone by the client, writes only the
    packet queues, the pending position and the list of posted closures:
    over any number of iterations the state, the media status, the event
    list, the gate, the error and the emitted signals stay as they were.
    The end of the media reaches the client only as a posted closure. *)
Theorem demux_keeps_client_side (enough : QAVPacketQueue -> bool)
    (envs : list DemuxerStep) (d : QAVPlayerPrivate) :
  Forall (fun env => seek_window env = []) envs ->
  client_side (fst (doDemux enough envs d)) = client_side d.
Proof.
  intros H. revert d. induction H as [|env envs Hw _ IH]; intros d; cbn.
  - reflexivity.
  - destruct (d_quit d); [reflexivity|].
    pose proof (demux_iteration_client_side enough env d Hw) as F.
    destruct (doDemux_iteration enough env d) as [d1 done1]. cbn [fst] in F.
    specialize (IH d1).
    destruct (doDemux enough envs d1) as [d2 done2]. cbn [fst] in *.
    now rewrite IH.
Qed.

(** ** The seek step and the end of the media *)

(** X9. A seek step that no newer [seek()] interrupts always clears the
    pending position, whether [demuxer.seek] succeeded or not.  On success
    both queues are emptied; on failure both queues are kept. *)
Theorem demux_seek_clears (env : DemuxerStep) (d : QAVPlayerPrivate) :
  seek_window env = [] ->
  isSeeking d = true ->
  d_pendingPosition (fst (demux_seek env d)) = (-1)%Q /\
  isSeeking (fst (demux_seek env d)) = false /\
  (0 <= seek_ret env ->
   Queue.isEmpty (d_videoQueue (fst (demux_seek env d))) = true /\
   Queue.isEmpty (d_audioQueue (fst (demux_seek env d))) = true) /\
  (seek_ret env < 0 ->
   d_videoQueue (fst (demux_seek env d)) = d_videoQueue d /\
   d_audioQueue (fst (demux_seek env d)) = d_audioQueue d).
Proof.
  intros Hw Hs. unfold isSeeking in Hs.
  unfold demux_seek, demux_seek_unlocked. rewrite Hs, Hw.
  cbn [run_calls fold_left fst].
  assert (F : qFuzzyCompare (d_pendingPosition d) (d_pendingPosition d) = true)
    by (apply qFuzzyCompare_same; reflexivity).
  destruct (Z.leb_spec 0 (seek_ret env)) as [Hr|Hr]; cbn; rewrite F; cbn;
    (split; [reflexivity|]); (split; [reflexivity|]); split; intros H;
    solve [lia | split; reflexivity].
Qed.

(** X10. Once the worker has finished the queues at the end of the file,
    the condition for doing so is false, so, as long as a stream is
    present, later iterations without a packet finish nothing and post no
    second closure. *)
Theorem demux_end_posted_once (eof : bool) (d : QAVPlayerPrivate) :
  hasVideo d = true \/ hasAudio d = true ->
  end_reached eof d = true ->
  forall eof',
    end_reached eof' (demux_no_packet eof d) = false /\
    demux_no_packet eof' (demux_no_packet eof d) = demux_no_packet eof d.
Proof.
  intros Hp He eof'.
  assert (E : end_reached eof' (demux_no_packet eof d) = false).
  { unfold demux_no_packet. rewrite He.
    unfold end_reached, dispatch, hasVideo, hasAudio in *.
    destruct (0 <=? d_videoStream d) eqn:Ev; cbn;
      destruct (0 <=? d_audioStream d) eqn:Ea; cbn;
      rewrite ?andb_false_r; try reflexivity.
    destruct Hp; discriminate. }
  split; [exact E|].
  unfold demux_no_packet at 1. now rewrite E.
Qed.

(** ** The closure of a finished load *)

Lemma loaded_setters_spec dur sk fr d :
  load_frame (loaded_setters dur sk fr d) = load_frame d /\
  d_mediaStatus (loaded_setters dur sk fr d) = LoadedMedia /\
  d_seekable (loaded_setters dur sk fr d) = sk /\
  qFuzzyCompare (d_duration (loaded_setters dur sk fr d)) dur = true /\
  qFuzzyCompare (d_videoFrameRate (loaded_setters dur sk fr d)) fr = true /\
  exists before,
    d_emitted (loaded_setters dur sk fr d) =
      d_emitted d ++ before ++
        (if MediaStatus_eqb (d_mediaStatus d) LoadedMedia then []
         else [mediaStatusChanged LoadedMedia]).
Proof.
  assert (Qs : forall x, qFuzzyCompare x x = true)
    by (intros x; apply qFuzzyCompare_same; reflexivity).
  unfold loaded_setters, load_frame.
  unfold setSeekable.
  destruct (Bool.eqb_spec (d_seekable d) sk) as [Es|Es];
    unfold setDuration; case_if;
    unfold setVideoFrameRate; case_if;
    unfold setMediaStatus; cbn -[qFuzzyCompare duration] in *;
    destruct (MediaStatus_eqb_spec (d_mediaStatus d) LoadedMedia) as [Em|Em];
    cbn -[qFuzzyCompare duration] in *;
    rewrite ?Qs;
    repeat (split; [first [reflexivity | assumption]|]);
    rewrite <- ?app_assoc; cbn [app];
    first [ exists []; now rewrite ?app_nil_r
          | eexists [_]; cbn [app]; reflexivity
          | eexists [_; _]; cbn [app]; reflexivity
          | eexists [_; _; _]; cbn [app]; reflexivity ].
Qed.

Lemma load_frame_inv a b :
  load_frame a = load_frame b ->
  d_url a = d_url b /\ d_state a = d_state b /\ d_events a = d_events b /\
  d_error a = d_error b /\ d_pendingPosition a = d_pendingPosition b /\
  d_videoStream a = d_videoStream b /\ d_audioStream a = d_audioStream b /\
  d_videoQueue a = d_videoQueue b /\ d_audioQueue a = d_audioQueue b /\
  d_isWaiting a = d_isWaiting b /\ d_posted a = d_posted b /\
  d_quit a = d_quit b.
Proof.
  unfold load_frame. intros H. inversion H. repeat split; assumption.
Qed.

Lemma call_frame_inv a b :
  call_frame a = call_frame b ->
  d_error a = d_error b /\ d_seekable a = d_seekable b /\
  d_videoFrameRate a = d_videoFrameRate b /\ d_duration a = d_duration b /\
  d_url a = d_url b /\ d_posted a = d_posted b /\
  d_videoQueue a = d_videoQueue b /\ d_audioQueue a = d_audioQueue b /\
  d_videoStream a = d_videoStream b /\ d_audioStream a = d_audioStream b.
Proof.
  unfold call_frame, worker_side. intros H. inversion H.
  repeat split; assumption.
Qed.

(** X13. The closure of a finished load always returns, given three
    iterations per queued event, and leaves the media loaded, [seekable]
    as the demuxer reported it, and the duration and the video frame rate
    equal to the demuxer's as far as [qFuzzyCompare] tells; the URL, the
    error, the stream indexes, the queues and the posted closures are not
    written. *)
Theorem loaded_closure (dur : Q) (sk : bool) (fr : Q) (fuel : nat)
    (d : QAVPlayerPrivate) :
  (3 * List.length (d_events d) <= fuel)%nat ->
  exists d',
    run_posted fuel (PostLoaded dur sk fr) d = Some d' /\
    loaded_or_end (mediaStatus d') = true /\
    d_seekable d' = sk /\
    qFuzzyCompare (d_duration d') dur = true /\
    qFuzzyCompare (d_videoFrameRate d') fr = true /\
    d_url d' = d_url d /\ d_error d' = d_error d /\
    d_posted d' = d_posted d /\
    d_videoStream d' = d_videoStream d /\
    d_audioStream d' = d_audioStream d /\
    d_videoQueue d' = d_videoQueue d /\ d_audioQueue d' = d_audioQueue d.
Proof.
  intros Hf.
  change (run_posted fuel (PostLoaded dur sk fr) d)
    with (processEvents fuel true (loaded_setters dur sk fr d)).
  destruct (loaded_setters_spec dur sk fr d) as (F & Hm & Hk & Hd & Hv & _).
  apply load_frame_inv in F.
  destruct F as (Fu & _ & Fe & Fr & _ & Fvs & Fas & Fvq & Faq & _ & Fp & _).
  set (x := loaded_setters dur sk fr d) in *.
  assert (P : exists d', processEvents fuel true x = Some d' /\
                         loaded_or_end (mediaStatus d') = true).
  { unfold processEvents.
    destruct (d_events x) as [|ev rest] eqn:E.
    - exists x. split; [reflexivity|]. unfold mediaStatus. now rewrite Hm.
    - destruct (isSeeking x).
      + exists x. split; [reflexivity|]. unfold mediaStatus. now rewrite Hm.
      + apply processEvents_loop_terminates.
        * unfold mediaStatus. now rewrite Hm.
        * rewrite E, <- Fe in *.
          pose proof (events_weight_length (ev :: rest)). lia. }
  destruct P as (d' & P & Hs). exists d'. split; [exact P|].
  split; [exact Hs|].
  apply processEvents_frame, call_frame_inv in P.
  destruct P as (Pe & Pk & Pv & Pd & Pu & Pp & Pvq & Paq & Pvs & Pas).
  rewrite Pk, Pd, Pv, Pu, Pe, Pp, Pvs, Pas, Pvq, Paq.
  repeat split; assumption.
Qed.

(** ** [terminate] and [setSource] *)

Lemma terminate_fields (d : QAVPlayerPrivate) :
  d_state (terminate d) = StoppedState /\
  d_mediaStatus (terminate d) = NoMedia /\
  d_quit (terminate d) = true /\
  d_isWaiting (terminate d) = false /\
  d_videoFrameRate (terminate d) = 0%Q /\
  d_pendingPosition (terminate d) = (-1)%Q /\
  d_videoQueue (terminate d) = Queue.abort (Queue.clear (d_videoQueue d)) /\
  d_audioQueue (terminate d) = Queue.abort (Queue.clear (d_audioQueue d)) /\
  d_emitted (terminate d) =
    d_emitted d
    ++ (if State_eqb (d_state d) StoppedState then []
        else [stateChanged StoppedState])
    ++ (if MediaStatus_eqb (d_mediaStatus d) NoMedia then []
        else [mediaStatusChanged NoMedia]) /\
  d_url (terminate d) = d_url d /\
  d_events (terminate d) = d_events d /\
  d_error (terminate d) = d_error d /\
  d_errorString (terminate d) = d_errorString d /\
  d_duration (terminate d) = d_duration d /\
  d_seekable (terminate d) = d_seekable d /\
  d_videoStream (terminate d) = d_videoStream d /\
  d_audioStream (terminate d) = d_audioStream d /\
  d_posted (terminate d) = d_posted d.
Proof.
  unfold terminate, setState, setMediaStatus, wait, emit.
  destruct (State_eqb_spec (d_state d) StoppedState) as [Es|Es]; cbn;
    destruct (MediaStatus_eqb_spec (d_mediaStatus d) NoMedia) as [Em|Em]; cbn;
    rewrite <- ?app_assoc, ?app_nil_r; repeat split; assumption.
Qed.

Lemma setSource_eq (url : string) (d : QAVPlayerPrivate) :
  setSource url d =
    if (d_url d =? url)%string then d
    else if (url =? "")%string
    then setDuration 0
           (setMediaStatus NoMedia
              (emit (sourceChanged url) (set_url url (terminate d))))
    else set_quit false
           (wait true (emit (sourceChanged url) (set_url url (terminate d)))).
Proof. reflexivity. Qed.

Lemma run_posted_loaded fuel dur sk fr d :
  run_posted fuel (PostLoaded dur sk fr) d
  = processEvents fuel true (loaded_setters dur sk fr d).
Proof. reflexivity. Qed.

Lemma setMediaStatus_error s d : d_error (setMediaStatus s d) = d_error d.
Proof. unfold setMediaStatus. case_if; reflexivity. Qed.

Lemma setDuration_error v d : d_error (setDuration v d) = d_error d.
Proof.
  unfold setDuration. destruct (qFuzzyCompare (d_duration d) v); reflexivity.
Qed.

Lemma terminate_error d : d_error (terminate d) = d_error d.
Proof.
  destruct (terminate_fields d)
    as (_ & _ & _ & _ & _ & _ & _ & _ & _ & _ & _ & E & _).
  exact E.
Qed.

Lemma source_tail_error url x :
  d_error (emit (sourceChanged url) (set_url url x)) = d_error x.
Proof. reflexivity. Qed.

Lemma source_armed_error url x :
  d_error (set_quit false (wait true (emit (sourceChanged url) (set_url url x))))
  = d_error x.
Proof. reflexivity. Qed.

Lemma setSource_error url d : d_error (setSource url d) = d_error d.
Proof.
  rewrite setSource_eq.
  destruct (d_url d =? url)%string; [reflexivity|].
  destruct (url =? "")%string.
  - rewrite setDuration_error, setMediaStatus_error, source_tail_error.
    apply terminate_error.
  - rewrite source_armed_error. apply terminate_error.
Qed.

(** ** The error *)

Lemma demux_iteration_error enough env d :
  d_error (fst (doDemux_iteration enough env d)) = d_error d.
Proof.
  unfold doDemux_iteration.
  destruct (backpressure enough d); [reflexivity|].
  assert (S : d_error (fst (demux_seek env d)) = d_error d).
  { unfold demux_seek, demux_seek_unlocked.
    destruct (Qle_bool 0 (d_pendingPosition d)); [|reflexivity].
    cbn [fst].
    match goal with
    | |- context [run_calls ?cs ?x] =>
        pose proof (run_calls_frame cs x) as F; set (r := run_calls cs x) in *
    end.
    apply call_frame_inv in F. destruct F as (F & _).
    assert (E : d_error r = d_error d).
    { rewrite F. destruct (0 <=? seek_ret env); reflexivity. }
    case_if; cbn; exact E. }
  destruct (demux_seek env d) as [d1 sought]. cbn [fst] in S.
  unfold demux_no_packet, demux_route, dispatch.
  destruct (read_packet env); repeat (cbn; try case_if); exact S.
Qed.

Lemma doDemux_error enough envs :
  forall d, d_error (fst (doDemux enough envs d)) = d_error d.
Proof.
  induction envs as [|env envs IH]; intros d; cbn; [reflexivity|].
  destruct (d_quit d); [reflexivity|].
  pose proof (demux_iteration_error enough env d) as E.
  destruct (doDemux_iteration enough env d) as [d1 done1]. cbn [fst] in E.
  specialize (IH d1).
  destruct (doDemux enough envs d1) as [d2 done2]. cbn [fst] in *.
  congruence.
Qed.

Lemma doLoad_posts (r : LoadResult) (d : QAVPlayerPrivate) :
  d_error (doLoad r d) = d_error d /\
  exists fn,
    d_posted (doLoad r d) = d_posted d ++ [fn] /\
    forall err str, fn = PostSetError err str -> err = ResourceError.
Proof.
  unfold doLoad, dispatch.
  repeat (cbn; try case_if);
    (split; [reflexivity|]); eexists; (split; [reflexivity|]);
    intros err str H; now inversion H.
Qed.

Lemma run_posted_error fuel fn d d' :
  run_posted fuel fn d = Some d' ->
  d_error d' = d_error d \/ exists str, fn = PostSetError (d_error d') str.
Proof.
  intros H. destruct fn as [err str|dur sk fr|].
  - cbn [run_posted] in H. inversion H; subst. unfold setError.
    destruct (Error_eqb (d_error d) err); [now left|].
    right. exists str. f_equal.
    rewrite setMediaStatus_error. reflexivity.
  - left. rewrite run_posted_loaded in H.
    apply processEvents_frame, call_frame_inv in H.
    destruct H as (H & _). rewrite H.
    destruct (loaded_setters_spec dur sk fr d) as (F & _).
    apply load_frame_inv in F. destruct F as (_ & _ & _ & Fe & _). exact Fe.
  - left. cbn [run_posted] in H. inversion H; subst.
    unfold stop, setState, mediaStatus.
    repeat (cbn [fst snd]; try case_if); cbn;
      try apply setMediaStatus_error.
Qed.

(** X11. Nothing resets the error.  [setSource], [terminate], the loader,
    the demuxer worker and the closures for a finished load and for the
    end of the media keep the error kind; the only writer is the posted
    [setError] closure, and the only kind the loader ever posts is
    ResourceError. *)
Theorem error_never_reset (d : QAVPlayerPrivate) :
  (forall url, d_error (setSource url d) = d_error d) /\
  d_error (terminate d) = d_error d /\
  (forall r,
     d_error (doLoad r d) = d_error d /\
     exists fn,
       d_posted (doLoad r d) = d_posted d ++ [fn] /\
       forall err str, fn = PostSetError err str -> err = ResourceError) /\
  (forall enough envs, d_error (fst (doDemux enough envs d)) = d_error d) /\
  (forall fuel fn d',
     run_posted fuel fn d = Some d' ->
     d_error d' = d_error d \/
     exists str, fn = PostSetError (d_error d') str).
Proof.
  split; [intros url; apply setSource_error|].
  split; [apply terminate_error|].
  split; [intros r; apply doLoad_posts|].
  split; [intros enough envs; apply doDemux_error|].
  intros fuel fn d'. apply run_posted_error.
Qed.

Lemma qFuzzyCompare_zero (x : Q) : qFuzzyCompare x 0 = true -> (x == 0)%Q.
Proof.
  intros H. apply qFuzzyCompare_iff in H. destruct H as [_ H].
  destruct x as [n p]. unfold Qle, Qabs, Qminus, Qplus, Qopp, Qmult in H.
  unfold Qeq. cbn in *. lia.
Qed.

Lemma to_qint64_zero (x : Q) : (x == 0)%Q -> to_qint64 (x * 1000) = 0.
Proof.
  destruct x as [n p]. unfold Qeq, to_qint64. cbn. intros H.
  replace n with 0 by lia. reflexivity.
Qed.

(** The fields after a change to a non-empty source, in terms of the
    terminated player [x]. *)
Lemma source_armed_fields url x :
  let y := set_quit false
             (wait true (emit (sourceChanged url) (set_url url x))) in
  d_url y = url /\ d_state y = d_state x /\
  d_mediaStatus y = d_mediaStatus x /\ d_quit y = false /\
  d_isWaiting y = true /\ d_videoFrameRate y = d_videoFrameRate x /\
  d_pendingPosition y = d_pendingPosition x /\
  d_videoQueue y = d_videoQueue x /\ d_audioQueue y = d_audioQueue x /\
  d_emitted y = d_emitted x ++ [sourceChanged url] /\
  d_events y = d_events x /\ d_error y = d_error x /\
  d_errorString y = d_errorString x /\ d_duration y = d_duration x /\
  d_seekable y = d_seekable x /\ d_videoStream y = d_videoStream x /\
  d_audioStream y = d_audioStream x /\ d_posted y = d_posted x.
Proof. cbn. repeat split. Qed.

(** [setSource] to a new, non-empty URL, field by field. *)
Lemma setSource_armed (url : string) (d : QAVPlayerPrivate) :
  d_url d <> url -> url <> ""%string ->
  d_url (setSource url d) = url /\
  d_state (setSource url d) = StoppedState /\
  d_mediaStatus (setSource url d) = NoMedia /\
  d_quit (setSource url d) = false /\
  d_isWaiting (setSource url d) = true /\
  d_videoFrameRate (setSource url d) = 0%Q /\
  d_pendingPosition (setSource url d) = (-1)%Q /\
  d_videoQueue (setSource url d) = Queue.abort (Queue.clear (d_videoQueue d)) /\
  d_audioQueue (setSource url d) = Queue.abort (Queue.clear (d_audioQueue d)) /\
  d_emitted (setSource url d) =
    d_emitted d
    ++ (if State_eqb (d_state d) StoppedState then []
        else [stateChanged StoppedState])
    ++ (if MediaStatus_eqb (d_mediaStatus d) NoMedia then []
        else [mediaStatusChanged NoMedia])
    ++ [sourceChanged url] /\
  d_events (setSource url d) = d_events d /\
  d_error (setSource url d) = d_error d /\
  d_errorString (setSource url d) = d_errorString d /\
  d_duration (setSource url d) = d_duration d /\
  d_seekable (setSource url d) = d_seekable d /\
  d_videoStream (setSource url d) = d_videoStream d /\
  d_audioStream (setSource url d) = d_audioStream d /\
  d_posted (setSource url d) = d_posted d.
Proof.
  intros Hu Hne. apply String.eqb_neq in Hu, Hne.
  rewrite setSource_eq, Hu, Hne.
  destruct (source_armed_fields url (terminate d))
    as (A1 & A2 & A3 & A4 & A5 & A6 & A7 & A8 & A9 & A10 & A11 & A12 & A13
        & A14 & A15 & A16 & A17 & A18).
  destruct (terminate_fields d)
    as (T1 & T2 & T3 & T4 & T5 & T6 & T7 & T8 & T9 & T10 & T11 & T12 & T13
        & T14 & T15 & T16 & T17 & T18).
  rewrite A1, A2, A3, A4, A5, A6, A7, A8, A9, A10, A11, A12, A13, A14, A15,
    A16, A17, A18.
  rewrite T1, T2, T5, T6, T7, T8, T9, T11, T12, T13, T14, T15, T16, T17, T18.
  rewrite <- !app_assoc. repeat split.
Qed.

(** The fields after a change to the empty source, in terms of the
    terminated player [x]. *)
Lemma source_cleared_fields url x :
  d_mediaStatus x = NoMedia ->
  let y := setDuration 0
             (setMediaStatus NoMedia
                (emit (sourceChanged url) (set_url url x))) in
  d_url y = url /\ d_state y = d_state x /\
  d_mediaStatus y = NoMedia /\ d_quit y = d_quit x /\
  d_isWaiting y = d_isWaiting x /\
  d_pendingPosition y = d_pendingPosition x /\
  d_videoQueue y = d_videoQueue x /\ d_audioQueue y = d_audioQueue x /\
  (d_duration y == 0)%Q /\
  d_events y = d_events x /\ d_error y = d_error x /\
  d_errorString y = d_errorString x /\
  d_seekable y = d_seekable x /\ d_videoStream y = d_videoStream x /\
  d_audioStream y = d_audioStream x /\ d_posted y = d_posted x.
Proof.
  intros Hm. cbn zeta. unfold setMediaStatus.
  replace (d_mediaStatus (emit (sourceChanged url) (set_url url x)))
    with NoMedia by (symmetry; exact Hm).
  cbn [MediaStatus_eqb].
  unfold setDuration.
  destruct (qFuzzyCompare
              (d_duration (emit (sourceChanged url) (set_url url x))) 0)
    eqn:E.
  - apply qFuzzyCompare_zero in E. repeat split; assumption.
  - cbn. repeat split; assumption || reflexivity.
Qed.

(** X14. [setSource] is idempotent: a second call with the same URL finds
    it stored and does nothing, so [sourceChanged] is emitted once. *)
Theorem setSource_twice (url : string) (d : QAVPlayerPrivate) :
  setSource url (setSource url d) = setSource url d.
Proof.
  assert (U : d_url (setSource url d) = url).
  { rewrite setSource_eq.
    destruct (String.eqb_spec (d_url d) url) as [E|E]; [exact E|].
    destruct (String.eqb_spec url "") as [E0|E0].
    - destruct (terminate_fields d) as (_ & Tm & _).
      destruct (source_cleared_fields url (terminate d) Tm) as (Y & _).
      exact Y.
    - destruct (source_armed_fields url (terminate d)) as (Y & _). exact Y. }
  rewrite (setSource_eq url (setSource url d)), U, String.eqb_refl.
  reflexivity.
Qed.

(** X15. A change of source resets the player: whatever it was doing, it
    ends Stopped with NoMedia, no pending seek, both queues empty and
    aborted, and [sourceChanged] as the last signal.  With a non-empty URL
    the gate is armed and [quit] is cleared for the new workers; with the
    empty URL the gate stays released, [quit] stays set and [duration()]
    is 0. *)
Theorem setSource_resets (url : string) (d : QAVPlayerPrivate) :
  d_url d <> url ->
  d_url (setSource url d) = url /\
  state (setSource url d) = StoppedState /\
  mediaStatus (setSource url d) = NoMedia /\
  isSeeking (setSource url d) = false /\
  Queue.isEmpty (d_videoQueue (setSource url d)) = true /\
  Queue.isEmpty (d_audioQueue (setSource url d)) = true /\
  q_aborted (d_videoQueue (setSource url d)) = true /\
  q_aborted (d_audioQueue (setSource url d)) = true /\
  (url <> ""%string ->
   d_isWaiting (setSource url d) = true /\
   d_quit (setSource url d) = false /\
   exists before,
     d_emitted (setSource url d) = d_emitted d ++ before ++ [sourceChanged url]) /\
  (url = ""%string ->
   d_isWaiting (setSource url d) = false /\
   d_quit (setSource url d) = true /\
   duration (setSource url d) = 0).
Proof.
  intros Hu. unfold state, mediaStatus, isSeeking.
  destruct (String.eqb_spec url "") as [E0|E0].
  - pose proof Hu as Hu'. apply String.eqb_neq in Hu'.
    rewrite setSource_eq, Hu'. subst url. cbn [String.eqb].
    destruct (terminate_fields d)
      as (T1 & T2 & T3 & T4 & _ & T6 & T7 & T8 & _).
    destruct (source_cleared_fields "" (terminate d) T2)
      as (A1 & A2 & A3 & A4 & A5 & A6 & A7 & A8 & A9 & _).
    rewrite A1, A2, A3, A6, A7, A8, T1, T6, T7, T8.
    repeat (split; [reflexivity|]).
    split; [intros F; now elim F|].
    intros _. rewrite A4, A5, T3, T4.
    repeat (split; [reflexivity|]).
    unfold duration. now apply to_qint64_zero.
  - destruct (setSource_armed url d Hu E0)
      as (A1 & A2 & A3 & A4 & A5 & _ & A7 & A8 & A9 & A10 & _).
    rewrite A1, A2, A3, A4, A5, A7, A8, A9.
    repeat (split; [reflexivity|]).
    split; [|intros F; contradiction].
    intros _. repeat (split; [reflexivity|]).
    rewrite A10.
    exists ((if State_eqb (d_state d) StoppedState then []
             else [stateChanged StoppedState])
            ++ (if MediaStatus_eqb (d_mediaStatus d) NoMedia then []
                else [mediaStatusChanged NoMedia])).
    now rewrite <- app_assoc.
Qed.

(** X16. A change of source does not clear what the old source left: the
    deferred events, the posted closures, the error and [seekable] are
    kept and so, for a non-empty URL, is the duration. *)
Theorem setSource_keeps (url : string) (d : QAVPlayerPrivate) :
  d_events (setSource url d) = d_events d /\
  d_posted (setSource url d) = d_posted d /\
  d_error (setSource url d) = d_error d /\
  d_errorString (setSource url d) = d_errorString d /\
  d_seekable (setSource url d) = d_seekable d /\
  (url <> ""%string -> d_duration (setSource url d) = d_duration d).
Proof.
  destruct (String.eqb_spec (d_url d) url) as [E|E].
  { rewrite setSource_eq. apply String.eqb_eq in E. rewrite E. tauto. }
  destruct (String.eqb_spec url "") as [E0|E0].
  - pose proof E as E'. apply String.eqb_neq in E'.
    rewrite setSource_eq, E'. subst url. cbn [String.eqb].
    destruct (terminate_fields d)
      as (_ & T2 & _ & _ & _ & _ & _ & _ & _ & _ & T11 & T12 & T13 & _ & T15
          & _ & _ & T18).
    destruct (source_cleared_fields "" (terminate d) T2)
      as (_ & _ & _ & _ & _ & _ & _ & _ & _ & A10 & A11 & A12 & A13 & _ & _
          & A16).
    rewrite A10, A11, A12, A13, A16, T11, T12, T13, T15, T18.
    repeat (split; [reflexivity|]). intros F. now elim F.
  - destruct (setSource_armed url d E E0)
      as (_ & _ & _ & _ & _ & _ & _ & _ & _ & _ & A11 & A12 & A13 & A14 & A15
          & _ & _ & A18).
    rewrite A11, A12, A13, A14, A15, A18. repeat split.
Qed.

Lemma player_ext (a b : QAVPlayerPrivate) :
  d_url a = d_url b -> d_mediaStatus a = d_mediaStatus b ->
  d_state a = d_state b -> d_events a = d_events b ->
  d_seekable a = d_seekable b -> d_videoFrameRate a = d_videoFrameRate b ->
  d_error a = d_error b -> d_errorString a = d_errorString b ->
  d_duration a = d_duration b -> d_pendingPosition a = d_pendingPosition b ->
  d_videoStream a = d_videoStream b -> d_audioStream a = d_audioStream b ->
  d_videoQueue a = d_videoQueue b -> d_audioQueue a = d_audioQueue b ->
  d_quit a = d_quit b -> d_isWaiting a = d_isWaiting b ->
  d_emitted a = d_emitted b -> d_posted a = d_posted b ->
  a = b.
Proof. destruct a, b; cbn; intros; subst; reflexivity. Qed.

(** X17. [terminate] is idempotent, and what it emits is at most
    [stateChanged(Stopped)] followed by [mediaStatusChanged(NoMedia)]. *)
Theorem terminate_twice (d : QAVPlayerPrivate) :
  terminate (terminate d) = terminate d /\
  emitted_by terminate d =
    (if State_eqb (state d) StoppedState then []
     else [stateChanged StoppedState])
    ++ (if MediaStatus_eqb (mediaStatus d) NoMedia then []
        else [mediaStatusChanged NoMedia]).
Proof.
  destruct (terminate_fields d)
    as (T1 & T2 & T3 & T4 & T5 & T6 & T7 & T8 & T9 & T10 & T11 & T12 & T13
        & T14 & T15 & T16 & T17 & T18).
  split.
  - destruct (terminate_fields (terminate d))
      as (S1 & S2 & S3 & S4 & S5 & S6 & S7 & S8 & S9 & S10 & S11 & S12 & S13
          & S14 & S15 & S16 & S17 & S18).
    apply player_ext; try congruence.
    + rewrite S7, T7. reflexivity.
    + rewrite S8, T8. reflexivity.
    + rewrite S9, T1, T2. cbn. now rewrite app_nil_r.
  - unfold emitted_by, state, mediaStatus.
    rewrite T9, skipn_app, skipn_all, Nat.sub_diag. reflexivity.
Qed.

Lemma play_deferred (y : QAVPlayerPrivate) :
  d_url y <> ""%string -> d_mediaStatus y = NoMedia ->
  play y = event EvPendingPlay y.
Proof.
  intros Hu Hm. apply String.eqb_neq in Hu.
  unfold play, mediaStatus. rewrite Hu, Hm. reflexivity.
Qed.

Lemma failed_load_turn (fuel : nat) (r : LoadResult) (y : QAVPlayerPrivate) :
  load_ret r < 0 -> d_posted y = [] -> d_error y = ResourceError ->
  exists d',
    client_turn fuel (doLoad r y) = Some d' /\
    d_mediaStatus d' = d_mediaStatus y /\ d_posted d' = [] /\
    d_emitted d' = d_emitted y /\ d_url d' = d_url y.
Proof.
  intros Hr Hp He. apply Z.ltb_lt in Hr.
  unfold client_turn, doLoad. cbv zeta. rewrite Hr.
  unfold dispatch. cbn. rewrite Hp. cbn.
  unfold setError. cbn. rewrite He. cbn.
  eexists. split; [reflexivity|]. repeat split.
Qed.

(** X12. After one resource error a later source that fails to load is not
    reported: the [setError] closure finds the same error kind stored and
    returns, so no [errorOccurred] is emitted, the media status stays
    NoMedia instead of InvalidMedia, and [play()] is deferred, not
    ignored. *)
Theorem second_failure_unreported (url : string) (r : LoadResult)
    (fuel : nat) (d : QAVPlayerPrivate) :
  d_error d = ResourceError ->
  d_url d <> url ->
  url <> ""%string ->
  load_ret r < 0 ->
  d_posted d = [] ->
  exists d',
    client_turn fuel (doLoad r (setSource url d)) = Some d' /\
    mediaStatus d' = NoMedia /\
    d_posted d' = [] /\
    existsb is_errorOccurred (emitted_by (fun _ => d') d) = false /\
    play d' = event EvPendingPlay d'.
Proof.
  intros He Hu Hne Hr Hp.
  destruct (setSource_armed url d Hu Hne)
    as (A1 & _ & A3 & _ & _ & _ & _ & _ & _ & A10 & _ & A12 & _ & _ & _ & _
        & _ & A18).
  destruct (failed_load_turn fuel r (setSource url d) Hr)
    as (d' & R & F1 & F2 & F3 & F4).
  { now rewrite A18. }
  { now rewrite A12. }
  exists d'. split; [exact R|].
  unfold mediaStatus, emitted_by.
  rewrite F1, A3, F3, A10, skipn_app, skipn_all, Nat.sub_diag.
  split; [reflexivity|]. split; [exact F2|]. split.
  - destruct (State_eqb (d_state d) StoppedState);
      destruct (MediaStatus_eqb (d_mediaStatus d) NoMedia); reflexivity.
  - apply play_deferred; [now rewrite F4, A1 | now rewrite F1].
Qed.

(** ** The end of the media, on the client thread *)

(** X18. The closure posted at the end of the media always leaves the
    player Stopped with EndOfMedia, whatever the media status was, and
    [position()] then reads [duration()].  If the state changes, one
    stopped event is queued and the gate is released; if the player was
    already stopped the gate is armed and nothing is queued. *)
Theorem end_of_media_closure (fuel : nat) (d : QAVPlayerPrivate) :
  exists d',
    run_posted fuel PostEndOfMedia d = Some d' /\
    mediaStatus d' = EndOfMedia /\
    state d' = StoppedState /\
    position d' = duration d' /\
    duration d' = duration d /\
    (state d <> StoppedState ->
     d_events d' = d_events d ++ [EvStopped] /\ d_isWaiting d' = false) /\
    (state d = StoppedState ->
     d_events d' = d_events d /\ d_isWaiting d' = true).
Proof.
  eexists. split; [reflexivity|].
  unfold stop, setState, setMediaStatus, position, duration, mediaStatus,
    state, event, wait, emit.
  destruct (MediaStatus_eqb_spec (d_mediaStatus d) EndOfMedia) as [Em|Em];
    [rewrite Em|]; cbn;
    destruct (State_eqb_spec (d_state d) StoppedState) as [Es|Es]; cbn;
    rewrite ?Em; cbn; repeat split; intros; try reflexivity;
    try assumption; try contradiction.
Qed.

(** ** A seek from the call to the signal *)

Lemma seek_fields (pos : Z) (d : QAVPlayerPrivate) :
  loaded_or_end (mediaStatus d) = true ->
  0 <= pos -> ~ (0 < duration d /\ duration d < pos) ->
  d_events (seek pos d) = d_events d ++ [EvSeeked] /\
  d_state (seek pos d) = d_state d /\
  d_isWaiting (seek pos d) = false /\
  isSeeking (seek pos d) = true.
Proof.
  intros Hs Hpos Hdur. rewrite (seek_accepted pos d Hpos Hdur Hs).
  unfold setMediaStatus, isSeeking.
  case_if; cbn; repeat split; now apply seconds_nonneg.
Qed.

Lemma demux_seek_quiet (env : DemuxerStep) (z : QAVPlayerPrivate) :
  seek_window env = [] -> isSeeking z = true ->
  d_events (fst (demux_seek env z)) = d_events z /\
  d_state (fst (demux_seek env z)) = d_state z /\
  d_isWaiting (fst (demux_seek env z)) = d_isWaiting z /\
  d_emitted (fst (demux_seek env z)) = d_emitted z /\
  isSeeking (fst (demux_seek env z)) = false.
Proof.
  intros Hw Hs. unfold isSeeking in *.
  unfold demux_seek, demux_seek_unlocked. rewrite Hs, Hw.
  cbn [run_calls fold_left fst].
  assert (F : qFuzzyCompare (d_pendingPosition z) (d_pendingPosition z) = true)
    by (apply qFuzzyCompare_same; reflexivity).
  destruct (0 <=? seek_ret env); cbn; rewrite F; cbn; repeat split.
Qed.

Lemma seeked_fires (w : QAVPlayerPrivate) :
  d_events w = [EvSeeked] -> isSeeking w = false ->
  exists d',
    processEvents 1 true w = Some d' /\
    d_state d' = d_state w /\ d_events d' = [] /\
    isSeeking d' = false /\
    d_isWaiting d' =
      (if State_eqb (d_state w) PlayingState then d_isWaiting w else true) /\
    d_emitted d' = d_emitted w ++ [seeked (position w)].
Proof.
  intros He Hs. unfold processEvents. rewrite He, Hs.
  cbn [processEvents_loop]. rewrite He.
  unfold run_event. rewrite Hs. cbn [negb orb].
  unfold state, emit, wait, isSeeking in *.
  cbn -[position processEvents_loop].
  destruct (d_state w) eqn:Est; cbn -[position]; rewrite ?He, ?Est;
    cbn -[position];
    eexists; (split; [reflexivity|]); cbn -[position];
    rewrite ?Est; repeat split; exact Hs.
Qed.

(** X19. A seek on a loaded player with no other event queued, once the
    demuxer worker has handled it undisturbed: the first tick with a frame
    fires exactly one [seeked], empties the event list, keeps the state,
    and arms the gate again unless the player is playing.  A tick without
    a frame fires nothing and leaves the event queued. *)
Theorem seek_completes (pos : Z) (env : DemuxerStep) (d : QAVPlayerPrivate) :
  loaded_or_end (mediaStatus d) = true ->
  d_events d = [] ->
  0 <= pos ->
  ~ (0 < duration d /\ duration d < pos) ->
  seek_window env = [] ->
  (exists d',
     processEvents 1 true (fst (demux_seek env (seek pos d))) = Some d' /\
     state d' = state d /\
     d_events d' = [] /\
     isSeeking d' = false /\
     d_isWaiting d' = negb (State_eqb (state d) PlayingState) /\
     exists p, d_emitted d' = d_emitted (seek pos d) ++ [seeked p]) /\
  (forall fuel,
     processEvents (S fuel) false (fst (demux_seek env (seek pos d)))
     = Some (fst (demux_seek env (seek pos d)))).
Proof.
  intros Hs He Hpos Hdur Hw.
  destruct (seek_fields pos d Hs Hpos Hdur) as (Z1 & Z2 & Z3 & Z4).
  rewrite He in Z1. cbn [app] in Z1.
  destruct (demux_seek_quiet env (seek pos d) Hw Z4)
    as (W1 & W2 & W3 & W4 & W5).
  rewrite Z1 in W1. split.
  - destruct (seeked_fires _ W1 W5) as (d' & P & F1 & F2 & F3 & F4 & F5).
    exists d'. split; [exact P|]. unfold state.
    rewrite F1, W2, Z2, F4, W2, Z2, W3, Z3, F5, W4.
    repeat (split; [first [reflexivity | assumption]|]).
    eexists; reflexivity.
  - intros fuel. unfold processEvents. rewrite W1, W5.
    cbn [processEvents_loop]. rewrite W1. reflexivity.
Qed.

(** ** Calls made before the load has finished *)

Lemma play_loaded (x : QAVPlayerPrivate) :
  d_url x <> ""%string -> d_mediaStatus x = LoadedMedia ->
  d_state x <> PlayingState ->
  play x =
    wait false
      (event EvPlayed (emit (stateChanged PlayingState)
                         (set_state PlayingState x))).
Proof.
  intros Hu Hm Hs. apply String.eqb_neq in Hu.
  unfold play, mediaStatus, setState. rewrite Hu, Hm.
  destruct (State_eqb_spec (d_state x) PlayingState); [contradiction|].
  reflexivity.
Qed.

Lemma pending_play_fires (x : QAVPlayerPrivate) :
  d_events x = [EvPendingPlay] ->
  d_url x <> ""%string -> d_mediaStatus x = LoadedMedia ->
  d_state x <> PlayingState -> isSeeking x = false ->
  exists d',
    processEvents 2 true x = Some d' /\
    d_state d' = PlayingState /\ d_events d' = [] /\
    d_isWaiting d' = false /\ d_mediaStatus d' = LoadedMedia /\
    d_emitted d' =
      d_emitted x ++ [stateChanged PlayingState; played (position x)].
Proof.
  intros He Hu Hm Hst Hs.
  unfold processEvents. rewrite He, Hs.
  cbn [processEvents_loop]. rewrite He. cbn [run_event].
  rewrite (play_loaded x Hu Hm Hst).
  unfold wait, event, emit. cbn -[position]. rewrite He. cbn -[position].
  unfold mediaStatus, position, duration, hasVideo.
  cbn. rewrite Hm. cbn.
  eexists. split; [reflexivity|]. cbn. rewrite <- app_assoc.
  unfold mediaStatus. rewrite Hm. cbn.
  repeat split.
Qed.

(** X20. [play()] called before the source is loaded, on a player that
    is not playing, has no event queued and no seek pending, is deferred:
    it changes no state and emits nothing.  It takes effect when the
    loader's closure runs: the player is then Playing with the gate
    released, the list of events is empty, and the last signals are
    [mediaStatusChanged(LoadedMedia)], [stateChanged(Playing)] and
    [played]. *)
Theorem deferred_play_starts (dur : Q) (sk : bool) (fr : Q)
    (d : QAVPlayerPrivate) :
  mediaStatus d = NoMedia ->
  d_url d <> ""%string ->
  state d <> PlayingState ->
  d_events d = [] ->
  isSeeking d = false ->
  state (play d) = state d /\
  emitted_by play d = [] /\
  exists d',
    run_posted 2 (PostLoaded dur sk fr) (play d) = Some d' /\
    mediaStatus d' = LoadedMedia /\
    state d' = PlayingState /\
    d_events d' = [] /\
    d_isWaiting d' = false /\
    exists before p,
      d_emitted d' =
        d_emitted d ++ before ++
          [mediaStatusChanged LoadedMedia; stateChanged PlayingState;
           played p].
Proof.
  intros Hm Hu Hst He Hs. unfold mediaStatus, state, emitted_by in *.
  rewrite (play_deferred d Hu Hm).
  split; [reflexivity|].
  split; [exact (skipn_all (d_emitted d))|].
  rewrite run_posted_loaded.
  destruct (loaded_setters_spec dur sk fr (event EvPendingPlay d))
    as (F & Lm & _ & _ & _ & before & Le).
  apply load_frame_inv in F.
  destruct F as (Fu & Fs & Fe & _ & Fp & _).
  cbn in Fu, Fs, Fe, Fp, Le. rewrite He in Fe. cbn in Fe.
  rewrite Hm in Le. cbn in Le.
  set (x := loaded_setters dur sk fr (event EvPendingPlay d)) in *.
  destruct (pending_play_fires x Fe) as (d' & P & G1 & G2 & G3 & G4 & G5).
  - now rewrite Fu.
  - exact Lm.
  - now rewrite Fs.
  - unfold isSeeking in *. now rewrite Fp.
  - exists d'. split; [exact P|].
    repeat (split; [assumption|]).
    exists before, (position x). rewrite G5, Le, <- !app_assoc. reflexivity.
Qed.

Lemma seek_on_loaded (pos : Z) (x : QAVPlayerPrivate) :
  d_mediaStatus x = LoadedMedia -> 0 <= pos ->
  ~ (0 < duration x /\ duration x < pos) ->
  d_events (seek pos x) = d_events x ++ [EvSeeked] /\
  isSeeking (seek pos x) = true /\
  duration (seek pos x) = duration x /\
  d_pendingPosition (seek pos x) = (inject_Z pos / 1000)%Q /\
  d_emitted (seek pos x) = d_emitted x /\
  d_mediaStatus (seek pos x) = LoadedMedia.
Proof.
  intros Hm Hpos Hd.
  assert (Hl : loaded_or_end (mediaStatus x) = true)
    by (unfold mediaStatus; rewrite Hm; reflexivity).
  rewrite (seek_accepted pos x Hpos Hd Hl).
  unfold setMediaStatus. cbn [d_mediaStatus set_pendingPosition].
  rewrite Hm. cbn [MediaStatus_eqb].
  unfold position, isSeeking, duration, mediaStatus. cbn.
  rewrite Hm. cbn. rewrite (seconds_nonneg pos Hpos).
  repeat split; exact Hm.
Qed.

Lemma seek_beyond_duration (pos : Z) (x : QAVPlayerPrivate) :
  0 < duration x -> duration x < pos -> seek pos x = x.
Proof.
  intros H0 H1. unfold seek. apply Z.ltb_lt in H0, H1.
  now rewrite H0, H1, orb_true_r.
Qed.

Lemma set_events_views l y :
  isSeeking (set_events l y) = isSeeking y /\
  duration (set_events l y) = duration y /\
  d_pendingPosition (set_events l y) = d_pendingPosition y /\
  d_emitted (set_events l y) = d_emitted y /\
  d_events (set_events l y) = l /\
  d_mediaStatus (set_events l y) = d_mediaStatus y.
Proof. repeat split. Qed.

Lemma pending_seek_fires (pos : Z) (x : QAVPlayerPrivate) :
  d_events x = [EvPendingSeek pos] ->
  d_mediaStatus x = LoadedMedia -> 0 <= pos -> isSeeking x = false ->
  exists d',
    processEvents 2 true x = Some d' /\
    d_mediaStatus d' = LoadedMedia /\
    duration d' = duration x /\
    d_emitted d' = d_emitted x /\
    (0 < duration x /\ duration x < pos ->
     d_events d' = [] /\ isSeeking d' = false) /\
    (~ (0 < duration x /\ duration x < pos) ->
     d_events d' = [EvSeeked] /\ isSeeking d' = true /\
     d_pendingPosition d' = (inject_Z pos / 1000)%Q).
Proof.
  intros He Hm Hpos Hs.
  unfold processEvents. rewrite He, Hs.
  cbn [processEvents_loop]. rewrite He. cbn [run_event].
  destruct (Z.ltb_spec 0 (duration x)) as [H0|H0];
    [destruct (Z.ltb_spec (duration x) pos) as [H1|H1]|].
  - rewrite (seek_rejected pos x) by (right; split; assumption).
    rewrite He. cbn [tl].
    destruct (set_events_views [] x) as (V1 & V2 & V3 & V4 & V5 & V6).
    rewrite V5. exists (set_events [] x).
    split; [reflexivity|]. rewrite V1, V2, V4, V5, V6, Hm.
    repeat (split; [reflexivity|]).
    split; [intros _; split; [reflexivity|exact Hs] | intros F; elim F; split; assumption].
  - assert (Hd : ~ (0 < duration x /\ duration x < pos)) by lia.
    destruct (seek_on_loaded pos x Hm Hpos Hd)
      as (Q1 & Q2 & Q3 & Q4 & Q5 & Q6).
    rewrite Q1, He. cbn [app tl].
    destruct (set_events_views [EvSeeked] (seek pos x))
      as (V1 & V2 & V3 & V4 & V5 & V6).
    rewrite V5. cbn [run_event negb orb]. rewrite V1, Q2.
    exists (set_events [EvSeeked] (seek pos x)).
    split; [reflexivity|]. rewrite V1, V2, V3, V4, V5, V6, Q2, Q3, Q4, Q5, Q6.
    repeat (split; [reflexivity|]).
    split; [intros F; contradiction | intros _; repeat split].
  - assert (Hd : ~ (0 < duration x /\ duration x < pos)) by lia.
    destruct (seek_on_loaded pos x Hm Hpos Hd)
      as (Q1 & Q2 & Q3 & Q4 & Q5 & Q6).
    rewrite Q1, He. cbn [app tl].
    destruct (set_events_views [EvSeeked] (seek pos x))
      as (V1 & V2 & V3 & V4 & V5 & V6).
    rewrite V5. cbn [run_event negb orb]. rewrite V1, Q2.
    exists (set_events [EvSeeked] (seek pos x)).
    split; [reflexivity|]. rewrite V1, V2, V3, V4, V5, V6, Q2, Q3, Q4, Q5, Q6.
    repeat (split; [reflexivity|]).
    split; [intros F; lia | intros _; repeat split].
Qed.

Lemma seek_deferred (pos : Z) (d : QAVPlayerPrivate) :
  d_mediaStatus d = NoMedia -> 0 <= pos ->
  ~ (0 < duration d /\ duration d < pos) ->
  seek pos d = event (EvPendingSeek pos) d.
Proof.
  intros Hm Hpos Hd. unfold seek, mediaStatus.
  replace ((pos <? 0) || ((0 <? duration d) && (duration d <? pos)))
    with false.
  - rewrite Hm. reflexivity.
  - symmetry. apply orb_false_iff. split; [now apply Z.ltb_ge|].
    apply andb_false_iff.
    destruct (Z.ltb_spec 0 (duration d)); [right|now left].
    apply Z.ltb_ge. lia.
Qed.

(** X21. [seek(pos)] called before the source is loaded, on a player with
    no event queued and no seek pending, is tested twice.  At the call it
    is tested against the duration the player still holds, which is the
    one of the source before: beyond it the call does nothing.  Otherwise
    it is deferred, and tested again against the duration that the load
    brings: beyond that the request is dropped without a signal;
    otherwise, once the loader's closure has run, the seek is pending with
    the target [pos / 1000.0] and its seeked event queued. *)
Theorem deferred_seek_revalidated (pos : Z) (dur : Q) (sk : bool) (fr : Q)
    (d : QAVPlayerPrivate) :
  mediaStatus d = NoMedia ->
  d_events d = [] ->
  isSeeking d = false ->
  0 <= pos ->
  (0 < duration d /\ duration d < pos -> seek pos d = d) /\
  (~ (0 < duration d /\ duration d < pos) ->
   seek pos d = event (EvPendingSeek pos) d /\
   exists d',
     run_posted 2 (PostLoaded dur sk fr) (seek pos d) = Some d' /\
     mediaStatus d' = LoadedMedia /\
     (0 < duration d' /\ duration d' < pos ->
      d_events d' = [] /\ isSeeking d' = false) /\
     (~ (0 < duration d' /\ duration d' < pos) ->
      d_events d' = [EvSeeked] /\ isSeeking d' = true /\
      d_pendingPosition d' = (inject_Z pos / 1000)%Q)).
Proof.
  intros Hm He Hs Hpos. unfold mediaStatus in Hm.
  split; [intros (H0 & H1); now apply seek_beyond_duration|].
  intros Hd.
  rewrite (seek_deferred pos d Hm Hpos Hd).
  split; [reflexivity|].
  rewrite run_posted_loaded.
  destruct (loaded_setters_spec dur sk fr (event (EvPendingSeek pos) d))
    as (F & Lm & _).
  apply load_frame_inv in F.
  destruct F as (_ & _ & Fe & _ & Fp & _).
  cbn in Fe, Fp. rewrite He in Fe. cbn in Fe.
  set (x := loaded_setters dur sk fr (event (EvPendingSeek pos) d)) in *.
  destruct (pending_seek_fires pos x Fe Lm Hpos)
    as (d' & P & G0 & G1 & G2 & G3 & G4).
  { unfold isSeeking in *. now rewrite Fp. }
  exists d'. split; [exact P|].
  unfold mediaStatus. rewrite G1. split; [exact G0|]. split; assumption.
Qed.

Lemma doLoad_ok (r : LoadResult) (y : QAVPlayerPrivate) :
  0 <= load_ret r ->
  0 <= load_videoStream r \/ 0 <= load_audioStream r ->
  doLoad r y =
    dispatch
      (PostLoaded (load_duration r) (load_seekable r) (load_frameRate r))
      (set_audioStream (load_audioStream r)
         (set_videoStream (load_videoStream r) y)).
Proof.
  intros Hr Hp. unfold doLoad. cbv zeta.
  replace (load_ret r <? 0) with false by (symmetry; now apply Z.ltb_ge).
  cbn [d_videoStream d_audioStream set_videoStream set_audioStream].
  replace ((load_videoStream r <? 0) && (load_audioStream r <? 0)) with false.
  - reflexivity.
  - symmetry. apply andb_false_iff.
    destruct Hp; [left|right]; now apply Z.ltb_ge.
Qed.

Lemma played_fires (x : QAVPlayerPrivate) :
  d_events x = [EvPlayed] -> isSeeking x = false ->
  exists d',
    processEvents 1 true x = Some d' /\
    d_state d' = d_state x /\ d_mediaStatus d' = d_mediaStatus x /\
    d_events d' = [] /\ d_isWaiting d' = false /\
    d_emitted d' = d_emitted x ++ [played (position x)].
Proof.
  intros He Hs. unfold processEvents. rewrite He, Hs.
  cbn [processEvents_loop]. rewrite He. cbn [run_event negb andb].
  cbn -[position]. rewrite He. cbn -[position].
  eexists. split; [reflexivity|]. repeat split.
Qed.

(** X22. A played event that is still queued when the source changes is
    not cleared, and fires when the new source has loaded: the loader's
    closure emits [played] and releases the gate although the state is
    Stopped and [play()] was never called for the new source. *)
Theorem stale_played_fires (url : string) (r : LoadResult)
    (d : QAVPlayerPrivate) :
  d_events d = [EvPlayed] ->
  d_url d <> url ->
  url <> ""%string ->
  d_posted d = [] ->
  0 <= load_ret r ->
  0 <= load_videoStream r \/ 0 <= load_audioStream r ->
  d_isWaiting (setSource url d) = true /\
  exists d',
    client_turn 1 (doLoad r (setSource url d)) = Some d' /\
    state d' = StoppedState /\
    mediaStatus d' = LoadedMedia /\
    d_events d' = [] /\
    d_isWaiting d' = false /\
    exists before p,
      d_emitted d' = d_emitted (setSource url d) ++ before ++ [played p].
Proof.
  intros He Hu Hne Hp Hr Hs.
  destruct (setSource_armed url d Hu Hne)
    as (_ & A2 & A3 & _ & A5 & _ & A7 & _ & _ & _ & A11 & _ & _ & _ & _ & _
        & _ & A18).
  split; [exact A5|].
  rewrite (doLoad_ok r (setSource url d) Hr Hs).
  unfold client_turn, dispatch.
  cbn [d_posted set_posted set_audioStream set_videoStream].
  rewrite A18, Hp. cbn [app]. rewrite run_posted_loaded.
  match goal with
  | |- context [loaded_setters ?a ?b ?c ?y] =>
      destruct (loaded_setters_spec a b c y) as (F & Lm & _ & _ & _ & bf & Le);
      set (x := loaded_setters a b c y) in *
  end.
  apply load_frame_inv in F. destruct F as (_ & Fs & Fe & _ & Fp & _).
  cbn in Fs, Fe, Fp, Le.
  rewrite A2 in Fs. rewrite A11, He in Fe. rewrite A7 in Fp. rewrite A3 in Le.
  cbn in Le.
  destruct (played_fires x Fe) as (d' & P & G1 & G2 & G3 & G4 & G5).
  { unfold isSeeking. rewrite Fp. reflexivity. }
  exists d'. split; [exact P|]. unfold state, mediaStatus.
  rewrite G1, G2, Fs, Lm.
  repeat (split; [first [reflexivity | assumption]|]).
  exists (bf ++ [mediaStatusChanged LoadedMedia]), (position x).
  rewrite G5, Le, <- !app_assoc. reflexivity.
Qed.

(** ** More on the calls and on the drain *)

(** X23. [pause()] at the end of the media seeks first: with the state not
    yet Paused, [seek(0)] is issued (the media status goes back to
    LoadedMedia) and the state becomes Paused after it, so
    [mediaStatusChanged(LoadedMedia)] precedes [stateChanged(Paused)]; the
    seeked event is queued ahead of the paused event and the gate is
    released. *)
Theorem pause_at_end (d : QAVPlayerPrivate) :
  mediaStatus d = EndOfMedia ->
  state d <> PausedState ->
  pause d = event EvPaused (wait false (snd (setState PausedState (seek 0 d)))) /\
  state (pause d) = PausedState /\
  mediaStatus (pause d) = LoadedMedia /\
  (d_pendingPosition (pause d) == 0)%Q /\
  d_events (pause d) = d_events d ++ [EvSeeked; EvPaused] /\
  d_isWaiting (pause d) = false /\
  emitted_by pause d =
    [mediaStatusChanged LoadedMedia; stateChanged PausedState].
Proof.
  intros Hm Hst. unfold mediaStatus, state in *.
  assert (Hl : loaded_or_end (mediaStatus d) = true)
    by (unfold mediaStatus; rewrite Hm; reflexivity).
  assert (E : pause d =
            event EvPaused
              (wait false (snd (setState PausedState (seek 0 d))))).
  { unfold pause, mediaStatus. rewrite Hm. cbn [loaded_or_end MediaStatus_eqb orb].
    rewrite (seek_zero_accepted d Hl).
    unfold setState, setMediaStatus. cbn. rewrite Hm. cbn.
    destruct (State_eqb_spec (d_state d) PausedState); [contradiction|].
    reflexivity. }
  split; [exact E|].
  unfold emitted_by. rewrite E, (seek_zero_accepted d Hl).
  unfold setState, setMediaStatus. cbn. rewrite Hm. cbn.
  destruct (State_eqb_spec (d_state d) PausedState); [contradiction|].
  cbn. repeat split.
  - now rewrite <- app_assoc.
  - rewrite <- !app_assoc. cbn.
    rewrite skipn_app, skipn_all, Nat.sub_diag. reflexivity.
Qed.

(** X24. The drain is strictly first in, first out: when the event at the
    head is not consumed, [processEvents] stops there; the event list is
    as it was, nothing is emitted, and no event behind the head runs. *)
Theorem processEvents_halts (fuel : nat) (tick : bool) (ev : Event)
    (rest : list Event) (d : QAVPlayerPrivate) :
  d_events d = ev :: rest ->
  isSeeking d = false ->
  fst (run_event ev tick d) = false ->
  processEvents (S fuel) tick d = Some (snd (run_event ev tick d)) /\
  d_events (snd (run_event ev tick d)) = ev :: rest /\
  d_emitted (snd (run_event ev tick d)) = d_emitted d.
Proof.
  intros He Hs Hf. split.
  - unfold processEvents. rewrite He, Hs.
    cbn [processEvents_loop]. rewrite He.
    destruct (run_event ev tick d) as [consumed d1]. cbn in Hf. subst consumed.
    reflexivity.
  - destruct ev; cbn [run_event] in *; try discriminate Hf;
      repeat (case_if; cbn [fst snd] in * ); try discriminate Hf;
      cbn; rewrite He; split; reflexivity.
Qed.

(** X25. The first failure to load is reported.  With no error stored, a
    load that fails, or that finds neither a video nor an audio stream,
    ends, once the client thread has run the posted closure, in
    InvalidMedia with ResourceError stored, [errorOccurred] emitted first
    with the message (the demuxer's, or "No codecs found"), and [play()]
    ignored from then on. *)
Theorem first_failure_reported (fuel : nat) (r : LoadResult)
    (d : QAVPlayerPrivate) :
  d_error d = NoError ->
  d_posted d = [] ->
  load_ret r < 0 \/ (load_videoStream r < 0 /\ load_audioStream r < 0) ->
  exists d' str,
    client_turn fuel (doLoad r d) = Some d' /\
    mediaStatus d' = InvalidMedia /\
    d_error d' = ResourceError /\
    d_errorString d' = str /\
    (load_ret r < 0 -> str = load_err_str r) /\
    (0 <= load_ret r -> str = "No codecs found"%string) /\
    (exists tail,
       emitted_by (fun _ => d') d = errorOccurred ResourceError str :: tail) /\
    play d' = d'.
Proof.
  intros He Hp Hf.
  assert (R : exists str,
            doLoad r d =
              dispatch (PostSetError ResourceError str)
                (set_audioStream (load_audioStream r)
                   (set_videoStream (load_videoStream r) d)) /\
            (load_ret r < 0 -> str = load_err_str r) /\
            (0 <= load_ret r -> str = "No codecs found"%string)).
  { unfold doLoad. cbv zeta.
    cbn [d_videoStream d_audioStream set_videoStream set_audioStream].
    destruct (Z.ltb_spec (load_ret r) 0) as [Hr|Hr].
    - exists (load_err_str r). split; [reflexivity|]. split; [reflexivity|lia].
    - destruct Hf as [Hf|[Hv Ha]]; [lia|].
      apply Z.ltb_lt in Hv, Ha. rewrite Hv, Ha. cbn [andb].
      exists "No codecs found"%string.
      split; [reflexivity|]. split; [lia|reflexivity]. }
  destruct R as (str & R & S1 & S2). rewrite R.
  unfold client_turn, dispatch. cbn [d_posted set_posted set_audioStream
    set_videoStream]. rewrite Hp. cbn [app run_posted].
  unfold setError. cbn [d_error set_posted set_audioStream set_videoStream].
  rewrite He. cbn [Error_eqb].
  eexists. exists str. split; [reflexivity|].
  unfold setMediaStatus, emitted_by, play, mediaStatus, emit.
  destruct (MediaStatus_eqb (d_mediaStatus d) InvalidMedia) eqn:Eb.
  - assert (Em : d_mediaStatus d = InvalidMedia)
      by (destruct (MediaStatus_eqb_spec (d_mediaStatus d) InvalidMedia);
          congruence).
    repeat (cbn; rewrite ?Eb, ?Em, ?orb_true_r).
    rewrite <- ?app_assoc, ?skipn_app, ?skipn_all, ?Nat.sub_diag.
    cbn. repeat (split; [first [reflexivity | assumption]|]).
    split; [eexists; reflexivity | reflexivity].
  - repeat (cbn; rewrite ?Eb, ?orb_true_r).
    rewrite <- ?app_assoc, ?skipn_app, ?skipn_all, ?Nat.sub_diag.
    cbn. repeat (split; [first [reflexivity | assumption]|]).
    split; [eexists; reflexivity | reflexivity].
Qed.

(** ** Rounding *)

(** X26. The trip of a seek target through seconds is not exact in
    binary64: [seek(1001)] stores [1001 / 1000.0], and [position()] then
    returns 1000.  For every target from 0 to 2000 ms [position()]
    returns the target or one millisecond less, and it returns less for
    twelve of them.  [qFuzzyCompare] does not tell 999999999.999 s from
    999999999.998 s, two targets one millisecond apart.  In the rationals
    of the embedding the same expressions give 1001, and tell the two
    targets apart. *)
Theorem binary64_seek_read_back :
  Binary64.position_pending (Binary64.seek_target 1001) = Some 1000 /\
  Binary64.within_one 2001 = true /\
  Binary64.short_of 2001 =
    [1001; 1003; 1005; 1007; 1009; 1011; 1013; 1015; 1017; 1019; 1021; 1023] /\
  Binary64.qFuzzyCompare (Binary64.seek_target 999999999999)
    (Binary64.seek_target 999999999998) = true /\
  to_qint64 (inject_Z 1001 / 1000 * 1000) = 1001 /\
  qFuzzyCompare (inject_Z 999999999999 / 1000) (inject_Z 999999999998 / 1000)
    = false.
Proof.
  split; [vm_compute; reflexivity|].
  split; [vm_compute; reflexivity|].
  split; [vm_compute; reflexivity|].
  split; [vm_compute; reflexivity|].
  split; vm_compute; reflexivity.
Qed.

(** * The further properties on sample runs *)

Lemma seek_then_position_witness :
  position (seek 2500 sample_ended) = to_qint64 (inject_Z 2500 / 1000 * 1000) /\
  mediaStatus (seek 2500 sample_ended) = LoadedMedia.
Proof.
  assert (H0 : 0 <= 2500) by discriminate.
  assert (H1 : ~ (0 < duration sample_ended /\ duration sample_ended < 2500))
    by (intros (_ & F); discriminate F).
  destruct (seek_then_position 2500 sample_ended eq_refl H0 H1)
    as (_ & P & _ & M & _).
  split; [exact P | exact M].
Defined.

Lemma play_twice_witness : play (play sample_loaded) = play sample_loaded.
Proof.
  assert (Hu : d_url sample_loaded <> ""%string) by discriminate.
  exact (play_twice sample_loaded Hu eq_refl).
Defined.

Lemma pause_twice_witness :
  pause (pause sample_playing) = wait true (pause sample_playing).
Proof. exact (pause_twice sample_playing eq_refl). Defined.

Lemma stop_twice_witness :
  stop (stop sample_playing) = wait true (stop sample_playing).
Proof. exact (stop_twice sample_playing eq_refl). Defined.

Lemma processEvents_terminates_witness :
  exists d',
    processEvents 6 true
      (event EvPendingPlay (event (EvPendingSeek 1000) sample_loaded))
    = Some d' /\
    loaded_or_end (mediaStatus d') = true.
Proof.
  apply processEvents_terminates; [reflexivity | apply le_n].
Defined.

Lemma processEvents_requeues_forever_witness :
  processEvents 1000 false sample_waiting = None.
Proof.
  assert (Hu : d_url sample_waiting <> ""%string) by discriminate.
  assert (He : d_events sample_waiting <> []) by discriminate.
  exact (processEvents_requeues_forever false sample_waiting eq_refl Hu
           eq_refl He eq_refl 1000%nat).
Defined.

Lemma demux_keeps_client_side_witness :
  client_side
    (fst (doDemux (enough_packets 16) [subtitle_step; quiet_step; eof_step]
            sample_playing))
  = client_side sample_playing.
Proof.
  apply demux_keeps_client_side. repeat constructor.
Defined.

Lemma demux_seek_clears_witness :
  d_pendingPosition (fst (demux_seek quiet_step (seek 3000 sample_playing)))
  = (-1)%Q.
Proof.
  destruct (demux_seek_clears quiet_step (seek 3000 sample_playing)
              eq_refl eq_refl) as (H & _).
  exact H.
Defined.

Lemma demux_end_posted_once_witness :
  demux_no_packet true (demux_no_packet true sample_playing)
  = demux_no_packet true sample_playing.
Proof.
  destruct (demux_end_posted_once true sample_playing (or_introl eq_refl)
              eq_refl true) as (_ & H).
  exact H.
Defined.

Lemma second_failure_unreported_witness :
  exists d',
    client_turn 1
      (doLoad sample_failed_load
         (setSource "file:///other" sample_playing_invalid)) = Some d' /\
    mediaStatus d' = NoMedia /\
    d_posted d' = [] /\
    existsb is_errorOccurred
      (emitted_by (fun _ => d') sample_playing_invalid) = false /\
    play d' = event EvPendingPlay d'.
Proof.
  apply second_failure_unreported; try reflexivity; discriminate.
Defined.

Lemma loaded_closure_witness :
  exists d',
    run_posted 3 (PostLoaded 10 true 25) sample_waiting = Some d' /\
    loaded_or_end (mediaStatus d') = true.
Proof.
  destruct (loaded_closure 10 true 25 3 sample_waiting (le_n 3))
    as (d' & R & L & _).
  exists d'. split; [exact R | exact L].
Defined.

Lemma setSource_resets_witness :
  state (setSource "file:///b.mp4" sample_playing) = StoppedState /\
  mediaStatus (setSource "file:///b.mp4" sample_playing) = NoMedia.
Proof.
  assert (Hu : d_url sample_playing <> "file:///b.mp4"%string)
    by discriminate.
  destruct (setSource_resets "file:///b.mp4" sample_playing Hu)
    as (_ & S & M & _).
  split; [exact S | exact M].
Defined.

Lemma seek_completes_witness :
  exists d',
    processEvents 1 true
      (fst (demux_seek quiet_step (seek 3000 sample_playing))) = Some d' /\
    state d' = PlayingState /\ d_events d' = [] /\ d_isWaiting d' = false.
Proof.
  assert (H0 : 0 <= 3000) by discriminate.
  assert (H1 : ~ (0 < duration sample_playing
                  /\ duration sample_playing < 3000))
    by (intros (_ & F); discriminate F).
  destruct (seek_completes 3000 quiet_step sample_playing eq_refl eq_refl
              H0 H1 eq_refl) as ((d' & P & S & E & _ & W & _) & _).
  exists d'. repeat split; assumption.
Defined.

Lemma deferred_play_starts_witness :
  exists d',
    run_posted 2 (PostLoaded 10 true 25) (play sample_opened) = Some d' /\
    mediaStatus d' = LoadedMedia /\ state d' = PlayingState.
Proof.
  assert (Hu : d_url sample_opened <> ""%string) by discriminate.
  assert (Hs : state sample_opened <> PlayingState) by discriminate.
  destruct (deferred_play_starts 10 true 25 sample_opened eq_refl Hu Hs
              eq_refl eq_refl) as (_ & _ & d' & R & M & S & _).
  exists d'. repeat split; assumption.
Defined.

Lemma deferred_seek_revalidated_witness :
  exists d',
    run_posted 2 (PostLoaded 10 true 25) (seek 12000 sample_opened)
    = Some d' /\
    mediaStatus d' = LoadedMedia.
Proof.
  assert (H0 : 0 <= 12000) by discriminate.
  assert (H1 : ~ (0 < duration sample_opened
                  /\ duration sample_opened < 12000))
    by (intros (F & _); discriminate F).
  destruct (deferred_seek_revalidated 12000 10 true 25 sample_opened
              eq_refl eq_refl eq_refl H0) as (_ & H).
  destruct (H H1) as (_ & d' & R & M & _).
  exists d'. split; assumption.
Defined.

Lemma stale_played_fires_witness :
  exists d',
    client_turn 1
      (doLoad sample_load (setSource "file:///b.mp4" (play sample_loaded)))
    = Some d' /\
    state d' = StoppedState /\ d_isWaiting d' = false.
Proof.
  assert (Hu : d_url (play sample_loaded) <> "file:///b.mp4"%string)
    by discriminate.
  assert (Hn : "file:///b.mp4"%string <> ""%string) by discriminate.
  assert (Hr : 0 <= load_ret sample_load) by discriminate.
  assert (Hv : 0 <= load_videoStream sample_load) by discriminate.
  destruct (stale_played_fires "file:///b.mp4" sample_load
              (play sample_loaded) eq_refl Hu Hn eq_refl Hr (or_introl Hv))
    as (_ & d' & R & S & _ & _ & W & _).
  exists d'. repeat split; assumption.
Defined.

Lemma pause_at_end_witness :
  emitted_by pause sample_ended =
    [mediaStatusChanged LoadedMedia; stateChanged PausedState].
Proof.
  assert (Hs : state sample_ended <> PausedState) by discriminate.
  destruct (pause_at_end sample_ended eq_refl Hs)
    as (_ & _ & _ & _ & _ & _ & H).
  exact H.
Defined.

Lemma processEvents_halts_witness :
  processEvents 1 false (play sample_loaded)
  = Some (snd (run_event EvPlayed false (play sample_loaded))).
Proof.
  destruct (processEvents_halts 0 false EvPlayed [] (play sample_loaded)
              eq_refl eq_refl eq_refl) as (H & _).
  exact H.
Defined.

Lemma first_failure_reported_witness :
  exists d' str,
    client_turn 1 (doLoad sample_failed_load sample_opened) = Some d' /\
    mediaStatus d' = InvalidMedia /\
    d_error d' = ResourceError /\
    d_errorString d' = str.
Proof.
  assert (Hr : load_ret sample_failed_load < 0) by reflexivity.
  destruct (first_failure_reported 1 sample_failed_load sample_opened
              eq_refl eq_refl (or_introl Hr))
    as (d' & str & R & M & E & S & _).
  exists d', str. repeat split; assumption.
Defined.
